(** * Verification of the credential, configuration and page-object layer
    of the PublicInput end-to-end test suite.

  Shallow embedding of
  - src/services/SecretManager.ts       (SecretManager)
  - src/config/ConfigurationManager.ts  (ConfigurationManager)
  - src/pages/CRMPage.ts, src/pages/LoginPage.ts (retryLogin,
    SegmentationPage counts, isElementVisible users)
  - src/unnamed/part_000                (UserType, UserLoginHelpers)
  - src/unnamed/part_008                (BasePage.isElementVisible)

  JavaScript strings are modelled as Stdlib ASCII strings; a JS object used
  as a dictionary ([secretKeys], [process.env], [secretCache]) is a
  [gmap string string]. *)

From Stdlib Require Import Ascii String NArith ZArith.
From stdpp Require Import base gmap strings list.

Open Scope string_scope.

(* ------------------------------------------------------------------ *)
(** ** JavaScript helpers *)

Module JS.

(** The double-quote character, used to spell selectors literally. *)
Definition dq : string := String (ascii_of_nat 34) EmptyString.

(** Truthiness of a possibly-undefined string ([undefined] and [""] are
    falsy). *)
Definition truthy (o : option string) : bool :=
  match o with
  | Some v => negb (String.eqb v "")
  | None => false
  end.

Definition is_alnum (c : ascii) : bool :=
  let n := nat_of_ascii c in
  (Nat.leb 48 n && Nat.leb n 57) || (Nat.leb 65 n && Nat.leb n 90)
  || (Nat.leb 97 n && Nat.leb n 122).

Definition is_digit (c : ascii) : bool :=
  let n := nat_of_ascii c in Nat.leb 48 n && Nat.leb n 57.

(** [s.replace(/[^a-zA-Z0-9]/g, '_')] *)
Fixpoint replace_non_alnum (s : string) : string :=
  match s with
  | EmptyString => EmptyString
  | String c r => String (if is_alnum c then c else "_"%char) (replace_non_alnum r)
  end.

Definition upper_char (c : ascii) : ascii :=
  let n := nat_of_ascii c in
  if Nat.leb 97 n && Nat.leb n 122 then ascii_of_nat (n - 32) else c.

Definition lower_char (c : ascii) : ascii :=
  let n := nat_of_ascii c in
  if Nat.leb 65 n && Nat.leb n 90 then ascii_of_nat (n + 32) else c.

(** [s.toUpperCase()] and [s.toLowerCase()] on ASCII strings. *)
Fixpoint toUpperCase (s : string) : string :=
  match s with
  | EmptyString => EmptyString
  | String c r => String (upper_char c) (toUpperCase r)
  end.

Fixpoint toLowerCase (s : string) : string :=
  match s with
  | EmptyString => EmptyString
  | String c r => String (lower_char c) (toLowerCase r)
  end.

(** [s.replace(/\D/g, '')] *)
Fixpoint keep_digits (s : string) : string :=
  match s with
  | EmptyString => EmptyString
  | String c r => if is_digit c then String c (keep_digits r) else keep_digits r
  end.

(** [parseInt] on a string of decimal digits: [None] is [NaN] (empty
    input). *)
Fixpoint parse_digits_acc (acc : nat) (s : string) : nat :=
  match s with
  | EmptyString => acc
  | String c r => parse_digits_acc (acc * 10 + (nat_of_ascii c - 48)) r
  end.

Definition parseInt_digits (s : string) : option nat :=
  match s with
  | EmptyString => None
  | _ => Some (parse_digits_acc 0 s)
  end.

(** [x || 0] on a number ([NaN] and [0] are falsy). *)
Definition or_zero (x : option nat) : nat :=
  match x with Some n => n | None => 0 end.

End JS.

(* ------------------------------------------------------------------ *)
(** ** Results of calls that may throw *)

Inductive error :=
| NoSecretKey (email : string)
| EmailNotFound (userType : string)
| UnsupportedUserType (userType : string)
| UnknownTabName (tabName : string)
| LoginFailed (userType : string) (maxAttempts : nat)
| SelectorTimeout (selector : string)
| BrowserError (selector : string).

Inductive result (A : Type) :=
| Ok (a : A)
| Throw (e : error).
Arguments Ok {A} a.
Arguments Throw {A} e.

(** A settled JS promise: the value an [async] function resolves with, or
  the error it rejects with. *)
Inductive promise (A : Type) :=
| Resolved (a : A)
| Rejected (e : error).
Arguments Resolved {A} a.
Arguments Rejected {A} e.

(* ------------------------------------------------------------------ *)
(** ** SecretManager (src/services/SecretManager.ts) *)

Module SecretManager.

(** The state the manager reads and writes: its own [secretCache], the
    [userAccountSecretMap.secretKeys] object of the settings singleton,
    and [process.env]. *)
Record state := mkState {
  secretCache : gmap string string;
  secretKeys : gmap string string;
  env : gmap string string
}.

(** [`PASSWORD_${email.replace(/[^a-zA-Z0-9]/g, '_').toUpperCase()}`] *)
Definition password_env_key (email : string) : string :=
  "PASSWORD_" ++ JS.toUpperCase (JS.replace_non_alnum email).

Definition with_cache (s : state) (c : gmap string string) : state :=
  mkState c (secretKeys s) (env s).

(** [retrievePasswordSync(email)], lines 65-96. *)
Definition retrievePasswordSync (email : string) (s : state)
    : result string * state :=
  match secretCache s !! email with
  | Some cached => (Ok cached, s)
  | None =>
      let secretKey := secretKeys s !! email in
      if negb (JS.truthy secretKey) then (Throw (NoSecretKey email), s)
      else
        let secretKey := default "" secretKey in
        let password :=
          if JS.truthy (env s !! secretKey) then default "" (env s !! secretKey)
          else if JS.truthy (env s !! password_env_key email)
          then default "" (env s !! password_env_key email)
          else secretKey in
        (Ok password, with_cache s (<[email := password]> (secretCache s)))
  end.

(** [async retrievePassword(email)], lines 24-60. The body contains no
    [await], so it runs to completion when called and the returned
    promise is already settled. *)
Definition retrievePassword (email : string) (s : state)
    : promise string * state :=
  match secretCache s !! email with
  | Some cached => (Resolved cached, s)
  | None =>
      match secretKeys s !! email with
      | None => (Rejected (NoSecretKey email), s)
      | Some secretKey =>
          if String.eqb secretKey "" then (Rejected (NoSecretKey email), s)
          else
            let password :=
              match env s !! secretKey with
              | Some v => if String.eqb v "" then None else Some v
              | None => None
              end in
            let password :=
              match password with
              | Some v => v
              | None =>
                  match env s !! password_env_key email with
                  | Some v => if String.eqb v "" then secretKey else v
                  | None => secretKey
                  end
              end in
            (Resolved password, with_cache s (<[email := password]> (secretCache s)))
      end
  end.

(** [clearCache()] *)
Definition clearCache (s : state) : state := with_cache s ∅.

(** [addAccount(email, secretKey)] *)
Definition addAccount (email secretKey : string) (s : state) : state :=
  mkState (secretCache s) (<[email := secretKey]> (secretKeys s)) (env s).

(** [removeAccount(email)] *)
Definition removeAccount (email : string) (s : state) : state :=
  mkState (delete email (secretCache s)) (delete email (secretKeys s)) (env s).

(** Operations of a test run on the manager, including changes to the
    process environment made from outside. *)
Inductive op :=
| RetrieveSync (email : string)
| Retrieve (email : string)
| ClearCache
| AddAccount (email secretKey : string)
| RemoveAccount (email : string)
| SetEnv (name value : string)
| UnsetEnv (name : string).

Definition step (o : op) (s : state) : state :=
  match o with
  | RetrieveSync e => snd (retrievePasswordSync e s)
  | Retrieve e => snd (retrievePassword e s)
  | ClearCache => clearCache s
  | AddAccount e k => addAccount e k s
  | RemoveAccount e => removeAccount e s
  | SetEnv n v => mkState (secretCache s) (secretKeys s) (<[n := v]> (env s))
  | UnsetEnv n => mkState (secretCache s) (secretKeys s) (delete n (env s))
  end.

Fixpoint run (ops : list op) (s : state) : state :=
  match ops with
  | [] => s
  | o :: rest => run rest (step o s)
  end.

(** Whether an operation removes [email]'s cache entry. *)
Definition evicts (email : string) (o : op) : bool :=
  match o with
  | ClearCache => true
  | RemoveAccount e => String.eqb e email
  | _ => false
  end.

End SecretManager.

(* ------------------------------------------------------------------ *)
(** ** ConfigurationManager (src/config/ConfigurationManager.ts) *)

Module Config.

(** The part of the JS heap the singleton touches: the static
    [ConfigurationManager.instance] field, the [settings] field of each
    manager object (an object reference), and the allocator. Objects are
    named by number. *)
Record heap := mkHeap {
  instance : option nat;
  settings_of : gmap nat nat;
  next_obj : nat
}.

Definition initial : heap := mkHeap None ∅ 0.

Definition alloc (h : heap) : nat * heap :=
  (next_obj h, mkHeap (instance h) (settings_of h) (S (next_obj h))).

(** [loadConfiguration()]: [this.settings = this.buildSettingsFromEnvironment()],
    which returns a fresh object [{ ...DEFAULT_APP_SETTINGS }]. *)
Definition loadConfiguration (self : nat) (h : heap) : heap :=
  let '(sid, h1) := alloc h in
  mkHeap (instance h1) (<[self := sid]> (settings_of h1)) (next_obj h1).

(** [private constructor()] *)
Definition construct (h : heap) : nat * heap :=
  let '(self, h1) := alloc h in (self, loadConfiguration self h1).

(** [static getInstance()], lines 19-24. *)
Definition getInstance (h : heap) : nat * heap :=
  match instance h with
  | Some i => (i, h)
  | None =>
      let '(i, h1) := construct h in
      (i, mkHeap (Some i) (settings_of h1) (next_obj h1))
  end.

(** [getSettings()]: the reference held in [this.settings]. *)
Definition getSettings (self : nat) (h : heap) : option nat := settings_of h !! self.

(** [reload()] *)
Definition reload (self : nat) (h : heap) : heap := loadConfiguration self h.

(** What a component does with the configuration: obtain the manager
    (directly or through the exported [configurationManager]), read its
    settings, or reload it. *)
Inductive cm_op := GetInstance | GetSettings | Reload.

Inductive obs :=
| ObsInstance (i : nat)
| ObsSettings (s : option nat)
| ObsUnit.

Definition cm_step (o : cm_op) (h : heap) : obs * heap :=
  let '(i, h1) := getInstance h in
  match o with
  | GetInstance => (ObsInstance i, h1)
  | GetSettings => (ObsSettings (getSettings i h1), h1)
  | Reload => (ObsUnit, reload i h1)
  end.

Fixpoint run_cm (ops : list cm_op) (h : heap) : list obs * heap :=
  match ops with
  | [] => ([], h)
  | o :: rest =>
      let '(ob, h1) := cm_step o h in
      let '(obs, h2) := run_cm rest h1 in (ob :: obs, h2)
  end.

Definition instances_seen (l : list obs) : list nat :=
  omap (fun o => match o with ObsInstance i => Some i | _ => None end) l.

Definition settings_seen (l : list obs) : list (option nat) :=
  omap (fun o => match o with ObsSettings s => Some s | _ => None end) l.

(** The heap once the manager (object 0) exists: its settings reference
    was allocated before the allocator's current position. *)
Definition constructed (h : heap) : Prop :=
  instance h = Some 0 /\ exists x, settings_of h !! 0 = Some x /\ x < next_obj h.

End Config.

(* ------------------------------------------------------------------ *)
(** ** UserType and UserLoginHelpers (src/unnamed/part_000) *)

Module UserLogin.

Inductive UserType := SUPER_ADMIN | ADMIN | DATA_VIEWER | EDITOR | NONE | PUBLISHER.

(** The string value of each enum member. *)
Definition UserType_value (t : UserType) : string :=
  match t with
  | SUPER_ADMIN => "SUPER_ADMIN"
  | ADMIN => "ADMIN"
  | DATA_VIEWER => "DATA_VIEWER"
  | EDITOR => "EDITOR"
  | NONE => "NONE"
  | PUBLISHER => "PUBLISHER"
  end.

(** [static getAllUserTypes()]: [Object.values(UserType)], in declaration
    order. *)
Definition getAllUserTypes : list string :=
  map UserType_value [SUPER_ADMIN; ADMIN; DATA_VIEWER; EDITOR; NONE; PUBLISHER].

(** The login routine [loginAsUser] hands over to. *)
Inductive routine :=
| LoginAsSuperAdmin
| LoginAsAdmin (customerId : string)
| LoginAsDataViewer
| LoginAsEditor
| LoginAsNone
| LoginAsPublisher.

(** [loginAsAdmin(customerId: string = '1087')] *)
Definition admin_customer (customerId : option string) : string :=
  match customerId with Some c => c | None => "1087" end.

(** [loginAsUser(userType, customerId)], lines 142-167: the [switch] on
    the runtime string value of [userType]. *)
Definition loginAsUser (userType : string) (customerId : option string)
    : result routine :=
  if String.eqb userType "SUPER_ADMIN" then Ok LoginAsSuperAdmin
  else if String.eqb userType "ADMIN" then Ok (LoginAsAdmin (admin_customer customerId))
  else if String.eqb userType "DATA_VIEWER" then Ok LoginAsDataViewer
  else if String.eqb userType "EDITOR" then Ok LoginAsEditor
  else if String.eqb userType "NONE" then Ok LoginAsNone
  else if String.eqb userType "PUBLISHER" then Ok LoginAsPublisher
  else Throw (UnsupportedUserType userType).

(** The role whose credentials each routine fetches
    ([this.getUserCredentials(UserType.X)]). *)
Definition routine_user_type (r : routine) : UserType :=
  match r with
  | LoginAsSuperAdmin => SUPER_ADMIN
  | LoginAsAdmin _ => ADMIN
  | LoginAsDataViewer => DATA_VIEWER
  | LoginAsEditor => EDITOR
  | LoginAsNone => NONE
  | LoginAsPublisher => PUBLISHER
  end.

(** [static getUserTypeDisplayName(userType)], lines 220-231. *)
Definition getUserTypeDisplayName (t : UserType) : string :=
  match t with
  | SUPER_ADMIN => "Super Admin"
  | ADMIN => "Admin"
  | DATA_VIEWER => "Data Viewer"
  | EDITOR => "Editor"
  | NONE => "None"
  | PUBLISHER => "Publisher"
  end.

Record UserCredentials := mkCredentials {
  email : string;
  password : string;
  userType : UserType
}.

(** [private getUserCredentials(userType)], lines 44-59; [userEmails] is
    [envConfig.getUserEmails()], indexed by the enum's string value. *)
Definition getUserCredentials (userEmails : gmap string string) (t : UserType)
    (s : SecretManager.state) : result UserCredentials * SecretManager.state :=
  let e := userEmails !! UserType_value t in
  if negb (JS.truthy e) then (Throw (EmailNotFound (UserType_value t)), s)
  else
    let e := default "" e in
    let '(r, s1) := SecretManager.retrievePasswordSync e s in
    match r with
    | Ok p => (Ok (mkCredentials e p t), s1)
    | Throw err => (Throw err, s1)
    end.

End UserLogin.

(* ------------------------------------------------------------------ *)
(** ** retryLogin (CRMPage.ts lines 57-86; LoginPage.ts lines 620-649) *)

Module Retry.

(** What the loop does, in order: start a login attempt (numbered from
    0), or [page.waitForTimeout(ms)]. *)
Inductive event :=
| Attempt (n : nat)
| Wait (ms : nat).

(** The [while] loop. [login k] is whether attempt [k] completes without
    throwing. The loop is entered with [loginAttempts = 0]; [fuel] bounds
    the iterations (it is [maxAttempts], and each iteration that does not
    leave the loop raises [loginAttempts] by one). *)
Fixpoint retry_loop (fuel : nat) (userType : string) (maxAttempts loginAttempts : nat)
    (login : nat -> bool) : list event * result unit :=
  match fuel with
  | O => ([], Ok tt)
  | S fuel' =>
      if Nat.ltb loginAttempts maxAttempts then
        if login loginAttempts then
          (* loginSuccessful = true: the loop condition fails *)
          ([Attempt loginAttempts], Ok tt)
        else
          let loginAttempts' := S loginAttempts in
          if Nat.leb maxAttempts loginAttempts' then
            ([Attempt loginAttempts], Throw (LoginFailed userType maxAttempts))
          else
            let '(tr, r) := retry_loop fuel' userType maxAttempts loginAttempts' login in
            (Attempt loginAttempts :: Wait 2000 :: tr, r)
      else ([], Ok tt)
  end.

(** [retryLogin(userType, customerId?, maxAttempts = 2)] *)
Definition retryLogin (userType : UserLogin.UserType) (maxAttempts : option nat)
    (login : nat -> bool) : list event * result unit :=
  let m := match maxAttempts with Some m => m | None => 2 end in
  retry_loop m (UserLogin.UserType_value userType) m 0 login.

(** Which routine one attempt runs:
    [if (userType === UserType.ADMIN && customerId) loginAsAdmin(customerId)
     else loginAsUser(userType, customerId)]. *)
Definition attempt_routine (userType : UserLogin.UserType) (customerId : option string)
    : result UserLogin.routine :=
  match userType, customerId with
  | UserLogin.ADMIN, Some c =>
      if JS.truthy (Some c) then Ok (UserLogin.LoginAsAdmin c)
      else UserLogin.loginAsUser (UserLogin.UserType_value userType) customerId
  | _, _ => UserLogin.loginAsUser (UserLogin.UserType_value userType) customerId
  end.

Definition attempts (tr : list event) : nat :=
  length (List.filter (fun e => match e with Attempt _ => true | Wait _ => false end) tr).

(** The trace of [n] failed attempts, numbered from [a], each followed by
    a wait. *)
Fixpoint failed_from (a n : nat) : list event :=
  match n with
  | O => []
  | S n' => Attempt a :: Wait 2000 :: failed_from (S a) n'
  end.

End Retry.

(* ------------------------------------------------------------------ *)
(** ** BasePage (src/unnamed/part_008) and the verify methods on it *)

Module BasePage.

(** How [page.waitForSelector(selector, ...)] ends for a selector in the
    current page: the element becomes visible after [ms] milliseconds, it
    never does, or the browser fails (invalid selector, closed page). *)
Inductive wait_outcome :=
| VisibleAfter (ms : nat)
| NeverVisible
| SelectorFailure.

Definition browser := string -> wait_outcome.

(** [page.waitForSelector(selector, { state: 'visible', timeout })] *)
Definition waitForSelector (b : browser) (selector : string) (timeout : nat)
    : promise unit :=
  match b selector with
  | VisibleAfter ms =>
      if Nat.leb ms timeout then Resolved tt else Rejected (SelectorTimeout selector)
  | NeverVisible => Rejected (SelectorTimeout selector)
  | SelectorFailure => Rejected (BrowserError selector)
  end.

(** [isElementVisible(selector)], lines 81-91. *)
Definition isElementVisible (b : browser) (selector : string) : promise bool :=
  match waitForSelector b selector 5000 with
  | Resolved _ => Resolved true
  | Rejected _ => Resolved false
  end.

(** A verify method of the form [return await this.isElementVisible(sel)]
    (verifyCRMHomePageVisible, verifyListTabPageLoaded,
    verifySegmentPageDisplayed, verifyMembersTableVisible, ...). *)
Definition verify_visible (sel : string) (b : browser) : promise bool :=
  isElementVisible b sel.

(** [return !(await this.isElementVisible(sel))]
    (CRMPage.verifyCreateNewContactListModalClosed). *)
Definition verify_not_visible (sel : string) (b : browser) : promise bool :=
  match isElementVisible b sel with
  | Resolved v => Resolved (negb v)
  | Rejected e => Rejected e
  end.

(** The tab-content selectors of the project admin page (LoginPage.ts
    lines 306-310). *)
Definition tab_content (cls name : string) : string :=
  "xpath=//ul[@id=" ++ JS.dq ++ "projectAdminMainTabNav" ++ JS.dq ++ "]//li[@class="
  ++ JS.dq ++ cls ++ JS.dq ++ "]//a[contains(., " ++ JS.dq ++ name ++ JS.dq ++ ")]".

Definition emailTabContent := tab_content "active" "Email".
Definition textTabContent := tab_content "active" "Text".
Definition participantsTabContent := tab_content "active" "Participants".
Definition commentsTabContent := tab_content "b-l active" "Comments".
Definition subscriptionsTabContent := tab_content "active" "Subscribers".

(** [verifyTabOpen(tabName)], LoginPage.ts lines 434-456. *)
Definition verifyTabOpen (b : browser) (tabName : string) : promise bool :=
  let t := JS.toLowerCase tabName in
  if String.eqb t "email" then isElementVisible b emailTabContent
  else if String.eqb t "text" then isElementVisible b textTabContent
  else if String.eqb t "participants" then isElementVisible b participantsTabContent
  else if String.eqb t "comments" then isElementVisible b commentsTabContent
  else if String.eqb t "subscribers" then isElementVisible b subscriptionsTabContent
  else Rejected (UnknownTabName tabName).

End BasePage.

(* ------------------------------------------------------------------ *)
(** ** Member counts of a segment *)

Module Segmentation.

(** The text content of the element a selector finds once
    [waitForElement] succeeds; [None] when the wait fails (and
    [getText] throws). *)
Definition page := string -> option string.

(** [BasePage.getText(selector)] ([textContent() || ''] is the [Some]). *)
Definition getText (p : page) (selector : string) : promise string :=
  match p selector with
  | Some t => Resolved t
  | None => Rejected (SelectorTimeout selector)
  end.

(** [parseInt(countText.replace(/\D/g, '')) || 0] *)
Definition parse_count (countText : string) : nat :=
  JS.or_zero (JS.parseInt_digits (JS.keep_digits countText)).

(** SegmentationPage selectors, LoginPage.ts lines 608-609. *)
Definition totalCountElement : string :=
  "xpath=//span[@id=" ++ JS.dq ++ "mcount" ++ JS.dq ++ "]".
Definition potentialSegmentMembersCount : string :=
  "xpath=//span[@id=" ++ JS.dq ++ "mcount" ++ JS.dq ++ "]".

(** [getTotalCountBelowMembersTable()], lines 864-874. *)
Definition getTotalCountBelowMembersTable (p : page) : nat :=
  match getText p totalCountElement with
  | Resolved countText => parse_count countText
  | Rejected _ => 0
  end.

(** [getPotentialSegmentMembersCount()], lines 879-889. *)
Definition getPotentialSegmentMembersCount (p : page) : nat :=
  match getText p potentialSegmentMembersCount with
  | Resolved countText => parse_count countText
  | Rejected _ => 0
  end.

(** [verifyTotalCountEqualsPotentialCount()], lines 894-900. *)
Definition verifyTotalCountEqualsPotentialCount (p : page) : bool :=
  Nat.eqb (getTotalCountBelowMembersTable p) (getPotentialSegmentMembersCount p).

(** The CRMPage counterparts, CRMPage.ts lines 46-47. *)
Definition crm_totalCountElement : string :=
  "xpath=//div[contains(@class, " ++ JS.dq ++ "total-count" ++ JS.dq ++ ")]".
Definition crm_potentialSegmentMembersCount : string :=
  "xpath=//div[contains(@class, " ++ JS.dq ++ "potential-members-count" ++ JS.dq ++ ")]".

End Segmentation.


(* ------------------------------------------------------------------ *)
(** ** More JavaScript string and number helpers *)

Module JS2.

(** [s.startsWith(pre)] *)
Fixpoint startsWith (pre s : string) : bool :=
  match pre, s with
  | EmptyString, _ => true
  | String a pre', String b s' => Ascii.eqb a b && startsWith pre' s'
  | String _ _, EmptyString => false
  end.

(** [s.indexOf(pat)], with [None] for [-1]. *)
Fixpoint indexOf (pat s : string) : option nat :=
  if startsWith pat s then Some 0
  else match s with
       | EmptyString => None
       | String _ s' => option_map S (indexOf pat s')
       end.

(** [s.replace(pat, rep)] with a string pattern: only the first
    occurrence is replaced. *)
Definition replace_first (pat rep s : string) : string :=
  match indexOf pat s with
  | Some n =>
      String.substring 0 n s ++ rep
      ++ String.substring (n + String.length pat) (String.length s - (n + String.length pat)) s
  | None => s
  end.

(** The ASCII part of the StrWhiteSpaceChar set (tab, LF, VT, FF, CR,
    space). *)
Definition is_ws (c : ascii) : bool :=
  let n := nat_of_ascii c in (Nat.leb 9 n && Nat.leb n 13) || Nat.eqb n 32.

Fixpoint skip_ws (s : string) : string :=
  match s with
  | String c r => if is_ws c then skip_ws r else s
  | EmptyString => EmptyString
  end.

(** The longest prefix of decimal digits. *)
Fixpoint digits_prefix (s : string) : string :=
  match s with
  | String c r => if JS.is_digit c then String c (digits_prefix r) else EmptyString
  | EmptyString => EmptyString
  end.

(** [parseInt(s, 10)]; [None] is [NaN] (negative zero is not kept
    apart from zero). *)
Definition parseInt10 (s : string) : option Z :=
  let t := skip_ws s in
  let '(sign, rest) :=
    match t with
    | String c r =>
        if Ascii.eqb c "-"%char then ((-1)%Z, r)
        else if Ascii.eqb c "+"%char then (1%Z, r)
        else (1%Z, t)
    | EmptyString => (1%Z, t)
    end in
  match digits_prefix rest with
  | EmptyString => None
  | ds => Some (sign * Z.of_nat (JS.parse_digits_acc 0 ds))%Z
  end.

End JS2.

(* ------------------------------------------------------------------ *)
(** ** SecretManager account queries (SecretManager.ts lines 108-157) *)

Module SecretManagerInfo.
Import SecretManager.

(** [getAvailableAccounts()]: [Object.keys(secretKeys)]. The order of
    [Object.keys] (insertion order) is not modelled; only which keys are
    listed. *)
Definition getAvailableAccounts (s : state) : list string :=
  map fst (map_to_list (secretKeys s)).

(** [hasAccount(email)]: [email in secretKeys]. *)
Definition hasAccount (email : string) (s : state) : bool :=
  bool_decide (is_Some (secretKeys s !! email)).

Record AccountInfo := mkAccountInfo {
  info_email : string;
  info_secretKey : string;
  hasPassword : bool
}.

(** [getAccountInfo(email)] *)
Definition getAccountInfo (email : string) (s : state) : option AccountInfo :=
  let secretKey := secretKeys s !! email in
  if negb (JS.truthy secretKey) then None
  else
    let secretKey := default "" secretKey in
    let hasPassword :=
      bool_decide (is_Some (env s !! secretKey))
      || bool_decide (is_Some (env s !! password_env_key email)) in
    Some (mkAccountInfo email secretKey hasPassword).

End SecretManagerInfo.

(* ------------------------------------------------------------------ *)
(** ** Settings objects on the heap (ConfigurationManager.ts 29-117,
     AppSettings.ts 66-101)

  [buildSettingsFromEnvironment] starts from [{ ...DEFAULT_APP_SETTINGS }],
  a shallow copy: the new settings object gets the same references to the
  nested [userAccountSecretMap] and [browserSettings] objects, and the
  overrides then write into those shared objects. The heap below keeps the
  objects apart by reference so that this sharing is visible. The
  environment passed to each load is [process.env] after [dotenv]'s
  [config()] has run. *)

Module SettingsHeap.

Record settings_obj := mkSettingsObj {
  userAccountSecretMap : nat;   (* reference *)
  browserSettings : nat         (* reference *)
}.

Record browser_obj := mkBrowserObj {
  browser : string;
  headless : bool;
  timeout : option Z            (* None is NaN *)
}.

Record store := mkStore {
  settings_objs : gmap nat settings_obj;
  secret_maps : gmap nat nat;                   (* .secretKeys reference *)
  keys_objs : gmap nat (gmap string string);
  browser_objs : gmap nat browser_obj;
  current : option nat;                         (* ConfigurationManager.settings *)
  next_ref : nat
}.

Definition DEFAULT_secretKeys : gmap string string :=
  list_to_map [
    ("admin_test@publicinput.org", "TestAdminPassword");
    ("dataviewer_test@publicinput.org", "TestDataViewerPassword");
    ("editor_test@publicinput.org", "TestEditorPassword");
    ("none_test@publicinput.org", "TestNonePassword");
    ("publisher_test@publicinput.org", "TestPublisherPassword");
    ("superadmintest@publicinput.com", "TestSuperAdminPassword")].

(** Module load: [DEFAULT_APP_SETTINGS] is object 0, its
    [userAccountSecretMap] object 1, whose [secretKeys] is object 2; its
    [browserSettings] is object 3. *)
Definition DEFAULT_APP_SETTINGS : nat := 0.

Definition initial : store :=
  mkStore {[0 := mkSettingsObj 1 3]} {[1 := 2]} {[2 := DEFAULT_secretKeys]}
    {[3 := mkBrowserObj "Chromium" true (Some 60000%Z)]} None 4.

Definition keys_ref (st : store) (sid : nat) : option nat :=
  settings_objs st !! sid ≫= fun so => secret_maps st !! userAccountSecretMap so.

Definition browser_ref (st : store) (sid : nat) : option nat :=
  browserSettings <$> settings_objs st !! sid.

Definition with_keys (st : store) (ko : gmap nat (gmap string string)) : store :=
  mkStore (settings_objs st) (secret_maps st) ko (browser_objs st) (current st) (next_ref st).

Definition with_browsers (st : store) (bo : gmap nat browser_obj) : store :=
  mkStore (settings_objs st) (secret_maps st) (keys_objs st) bo (current st) (next_ref st).

(** Write through a reference that may be missing (never the case for
    stores reached from [initial]). *)
Definition modify_keys (st : store) (r : option nat)
    (f : gmap string string -> gmap string string) : store :=
  match r with Some kr => with_keys st (alter f kr (keys_objs st)) | None => st end.

Definition modify_browser (st : store) (r : option nat) (f : browser_obj -> browser_obj)
    : store :=
  match r with Some br => with_browsers st (alter f br (browser_objs st)) | None => st end.

Definition env_get (env : gmap string string) (name : string) : option string :=
  env !! name.

(** One iteration of [loadUserAccountSecrets]'s [forEach]. *)
Definition load_secret (keys : gmap string string) (kv : string * string)
    : gmap string string :=
  let '(key, secretKey) := kv in
  if JS2.startsWith "USER_SECRET_" key then
    let emailHash := JS2.replace_first "USER_SECRET_" "" key in
    if JS.truthy (Some secretKey) then <[emailHash := secretKey]> keys else keys
  else keys.

(** [loadUserAccountSecrets(settings)]: the loop over
    [Object.keys(process.env)] (enumerated here by [map_to_list]). *)
Definition loadUserAccountSecrets (env : gmap string string) (keys : gmap string string)
    : gmap string string :=
  fold_left load_secret (map_to_list env) keys.

(** The [browserSettings] overrides of [buildSettingsFromEnvironment]. *)
Definition browser_overrides (env : gmap string string) (b : browser_obj) : browser_obj :=
  let b := if JS.truthy (env_get env "BROWSER")
           then mkBrowserObj (default "" (env_get env "BROWSER")) (headless b) (timeout b)
           else b in
  let b := match env_get env "HEADLESS" with
           | Some v => mkBrowserObj (browser b) (String.eqb v "true") (timeout b)
           | None => b
           end in
  if JS.truthy (env_get env "TIMEOUT")
  then mkBrowserObj (browser b) (headless b) (JS2.parseInt10 (default "" (env_get env "TIMEOUT")))
  else b.

(** [buildSettingsFromEnvironment()]: returns the new settings object. *)
Definition buildSettingsFromEnvironment (env : gmap string string) (st : store)
    : nat * store :=
  let n := next_ref st in
  let st1 :=
    match settings_objs st !! DEFAULT_APP_SETTINGS with
    | Some so =>
        mkStore (<[n := so]> (settings_objs st)) (secret_maps st) (keys_objs st)
          (browser_objs st) (current st) (S n)
    | None => mkStore (settings_objs st) (secret_maps st) (keys_objs st)
                (browser_objs st) (current st) (S n)
    end in
  let st2 := modify_browser st1 (browser_ref st1 n) (browser_overrides env) in
  let st3 := modify_keys st2 (keys_ref st2 n) (loadUserAccountSecrets env) in
  (n, st3).

(** [loadConfiguration()]: [this.settings = this.buildSettingsFromEnvironment()];
    the constructor and [reload()] both run it. *)
Definition loadConfiguration (env : gmap string string) (st : store) : store :=
  let '(n, st1) := buildSettingsFromEnvironment env st in
  mkStore (settings_objs st1) (secret_maps st1) (keys_objs st1) (browser_objs st1)
    (Some n) (next_ref st1).

(** [SecretManager.addAccount(email, secretKey)]:
    [getSettings().userAccountSecretMap.secretKeys[email] = secretKey]. *)
Definition addAccount (email secretKey : string) (st : store) : store :=
  match current st with
  | Some sid => modify_keys st (keys_ref st sid) (insert email secretKey)
  | None => st
  end.

(** Reading [settings.userAccountSecretMap.secretKeys[email]] through the
    settings object [sid]. *)
Definition secret_key_via (st : store) (sid : nat) (email : string) : option string :=
  keys_ref st sid ≫= fun kr => keys_objs st !! kr ≫= fun m => m !! email.

Definition current_secret_key (st : store) (email : string) : option string :=
  current st ≫= fun sid => secret_key_via st sid email.

Definition current_browser (st : store) : option browser_obj :=
  current st ≫= fun sid => browser_ref st sid ≫= fun br => browser_objs st !! br.

(** [SecretManager.removeAccount(email)]: the [delete] on the secret map
    of the current settings (its cache is modelled in [SecretManager]). *)
Definition removeAccount (email : string) (st : store) : store :=
  match current st with
  | Some sid => modify_keys st (keys_ref st sid) (delete email)
  | None => st
  end.

(** What the rest of the suite can do to these objects: [reload()] with
    the environment of that moment, [addAccount] and [removeAccount]. *)
Inductive sop :=
| SReload (env : gmap string string)
| SAdd (email secretKey : string)
| SRemove (email : string).

Definition sstep (st : store) (o : sop) : store :=
  match o with
  | SReload env => loadConfiguration env st
  | SAdd e k => addAccount e k st
  | SRemove e => removeAccount e st
  end.

(** The constructor ([getInstance()]) followed by any sequence of
    operations. *)
Definition boot (env0 : gmap string string) (ops : list sop) : store :=
  fold_left sstep ops (loadConfiguration env0 initial).

(** The shape every reachable store has: every settings object, the
    default one included, holds the same two references. *)
Definition wf (st : store) : Prop :=
  (forall sid so, settings_objs st !! sid = Some so -> so = mkSettingsObj 1 3) /\
  settings_objs st !! DEFAULT_APP_SETTINGS = Some (mkSettingsObj 1 3) /\
  secret_maps st !! 1 = Some 2 /\
  is_Some (keys_objs st !! 2) /\
  is_Some (browser_objs st !! 3) /\
  (forall sid, current st = Some sid -> is_Some (settings_objs st !! sid)).

(** A store reached after the constructor ran. *)
Definition ready (st : store) : Prop := wf st /\ is_Some (current st).

End SettingsHeap.

(* ------------------------------------------------------------------ *)
(** ** TestHelpers.clickElement (src/unnamed/part_001 lines 57-68) *)

Module Click.
Import Retry.

(** [for (let i = 0; i < retries; i++) { try { ...; return; } catch ... }].
    [attempt i] is [None] when the wait and the click of iteration [i]
    succeed and [Some err] when one of them throws [err]. *)
Fixpoint click_loop (fuel i retries : nat) (attempt : nat -> option error)
    : list event * promise unit :=
  match fuel with
  | O => ([], Resolved tt)
  | S fuel' =>
      if Nat.ltb i retries then
        match attempt i with
        | None => ([Attempt i], Resolved tt)
        | Some err =>
            if Nat.eqb i (retries - 1) then ([Attempt i], Rejected err)
            else
              let '(tr, r) := click_loop fuel' (S i) retries attempt in
              (Attempt i :: Wait 1000 :: tr, r)
        end
      else ([], Resolved tt)
  end.

(** The trace of attempts [a], ..., [a + n] of which only the last one
    succeeds. *)
Fixpoint click_trace (a n : nat) : list event :=
  match n with
  | O => [Attempt a]
  | S n' => Attempt a :: Wait 1000 :: click_trace (S a) n'
  end.

(** [clickElement(page, selector, retries = 3)] *)
Definition clickElement (retries : option nat) (attempt : nat -> option error)
    : list event * promise unit :=
  let r := match retries with Some r => r | None => 3 end in
  click_loop r 0 r attempt.

End Click.

(* ------------------------------------------------------------------ *)
(** ** CRMPage member counts (CRMPage.ts lines 361-381) *)

Module CRMCounts.
Import Segmentation.

(** Here [getText] is not wrapped in [try]: a missing element rejects. *)
Definition getTotalCountBelowMembersTable (p : page) : promise nat :=
  match getText p crm_totalCountElement with
  | Resolved countText => Resolved (parse_count countText)
  | Rejected e => Rejected e
  end.

Definition getPotentialSegmentMembersCount (p : page) : promise nat :=
  match getText p crm_potentialSegmentMembersCount with
  | Resolved countText => Resolved (parse_count countText)
  | Rejected e => Rejected e
  end.

Definition verifyTotalCountEqualsPotentialCount (p : page) : promise bool :=
  match getTotalCountBelowMembersTable p with
  | Rejected e => Rejected e
  | Resolved totalCount =>
      match getPotentialSegmentMembersCount p with
      | Rejected e => Rejected e
      | Resolved potentialCount => Resolved (Nat.eqb totalCount potentialCount)
      end
  end.

End CRMCounts.

(* ------------------------------------------------------------------ *)
(** ** Concrete inputs used by the examples and witnesses *)

Module Fixtures.
Import SecretManager.

Definition to_promise {A} (r : result A) : promise A :=
  match r with Ok a => Resolved a | Throw e => Rejected e end.

(** Concrete states: the default secret map entry of the admin test user,
    and an environment that does or does not hold the password. *)
Definition admin_email := "admin_test@publicinput.org".

Definition s_no_env : state :=
  mkState ∅ {[admin_email := "TestAdminPassword"]} ∅.

Definition s_env : state :=
  mkState ∅ {[admin_email := "TestAdminPassword"]} {["TestAdminPassword" := "s3cret"]}.

Definition s_empty_key : state := mkState ∅ {[admin_email := ""]} ∅.

(** The secret key names an environment variable that is set but empty. *)
Definition s_env_blank : state :=
  mkState ∅ {[admin_email := "TestAdminPassword"]} {["TestAdminPassword" := ""]}.

Definition s_cached : state :=
  mkState {[admin_email := "old"]} {[admin_email := "TestAdminPassword"]} ∅.

Definition all_roles : list UserLogin.UserType :=
  [UserLogin.SUPER_ADMIN; UserLogin.ADMIN; UserLogin.DATA_VIEWER; UserLogin.EDITOR;
   UserLogin.NONE; UserLogin.PUBLISHER].

Definition test_emails : gmap string string :=
  {["ADMIN" := "admin_test@publicinput.org"]}.

(** A segment page whose [span#mcount] reads 25 while the CRM-style
    total-count element below the members table reads 10. *)
Definition page_mismatch : Segmentation.page :=
  fun sel =>
    if String.eqb sel Segmentation.totalCountElement then Some "25"
    else if String.eqb sel Segmentation.crm_totalCountElement then Some "Total: 10"
    else None.

Definition all_visible : BasePage.browser := fun _ => BasePage.VisibleAfter 0.

End Fixtures.

(* ================================================================== *)
(** * Properties *)

Module SecretManagerFacts.
Import SecretManager Fixtures.

Lemma retrievePasswordSync_cached (e p : string) (s : state) :
  secretCache s !! e = Some p -> retrievePasswordSync e s = (Ok p, s).
Proof. intros H. unfold retrievePasswordSync. by rewrite H. Qed.

Lemma retrievePassword_cached (e p : string) (s : state) :
  secretCache s !! e = Some p -> retrievePassword e s = (Resolved p, s).
Proof. intros H. unfold retrievePassword. by rewrite H. Qed.


(** The async and the sync retrieval compute the same thing. *)
Lemma retrievePassword_as_sync (e : string) (s : state) :
  retrievePassword e s =
    (to_promise (fst (retrievePasswordSync e s)), snd (retrievePasswordSync e s)).
Proof.
  unfold retrievePassword, retrievePasswordSync, JS.truthy.
  destruct (secretCache s !! e) as [p|]; [reflexivity|].
  destruct (secretKeys s !! e) as [k|]; [|reflexivity]. simpl.
  destruct (String.eqb k "") eqn:Hk; [reflexivity|]. simpl.
  destruct (env s !! k) as [v|]; simpl;
    [destruct (String.eqb v "") eqn:Hv; simpl; [|reflexivity]|];
    destruct (env s !! password_env_key e) as [w|]; simpl;
    try (destruct (String.eqb w "")); reflexivity.
Qed.

(** A successful retrieval leaves the password in the cache. *)
Lemma retrievePasswordSync_caches (e p : string) (s s1 : state) :
  retrievePasswordSync e s = (Ok p, s1) -> secretCache s1 !! e = Some p.
Proof.
  unfold retrievePasswordSync. destruct (secretCache s !! e) eqn:Hc.
  - intros [= -> ->]. exact Hc.
  - destruct (negb _); [discriminate|]. intros [= <- <-]. simpl.
    apply lookup_insert_eq.
Qed.

(** One operation that does not evict [e] keeps [e]'s cache entry. *)
Lemma step_keeps_entry (e p : string) (o : op) (s : state) :
  secretCache s !! e = Some p -> evicts e o = false ->
  secretCache (step o s) !! e = Some p.
Proof.
  intros Hc Hev. destruct o as [e'|e'| |e' k|e'|n v|n]; simpl in *; try exact Hc.
  - unfold retrievePasswordSync. destruct (secretCache s !! e') eqn:He'; [exact Hc|].
    destruct (negb _); [exact Hc|]. simpl.
    rewrite lookup_insert_ne; [exact Hc|congruence].
  - rewrite retrievePassword_as_sync. simpl.
    unfold retrievePasswordSync. destruct (secretCache s !! e') eqn:He'; [exact Hc|].
    destruct (negb _); [exact Hc|]. simpl.
    rewrite lookup_insert_ne; [exact Hc|congruence].
  - discriminate.
  - unfold removeAccount. simpl. apply String.eqb_neq in Hev.
    rewrite lookup_delete_ne; [exact Hc|congruence].
Qed.

Lemma run_keeps_entry (e p : string) (ops : list op) (s : state) :
  secretCache s !! e = Some p -> Forall (fun o => evicts e o = false) ops ->
  secretCache (run ops s) !! e = Some p.
Proof.
  intros Hc Hops. revert s Hc.
  induction Hops as [|o ops Ho Hops IH]; intros s Hc; simpl; [exact Hc|].
  apply IH. by apply step_keeps_entry.
Qed.

End SecretManagerFacts.

Module SecretManagerClaims.
Import SecretManager SecretManagerFacts Fixtures.


Example retrieve_env_example :
  fst (retrievePasswordSync admin_email s_env) = Ok "s3cret".
Proof. vm_compute. reflexivity. Qed.

Example retrieve_fallback_example :
  fst (retrievePasswordSync admin_email
         (mkState ∅ {[admin_email := "K"]}
            {["PASSWORD_ADMIN_TEST_PUBLICINPUT_ORG" := "pw2"]})) = Ok "pw2".
Proof. vm_compute. reflexivity. Qed.

(** C1 (counterexample): the admin test user has the secret key
    [TestAdminPassword] in the map, but no environment variable of that
    name is set; the retrieved password is then the secret key itself, not
    the value of an environment variable. *)
Lemma C1_counterexample :
  secretKeys s_no_env !! admin_email = Some "TestAdminPassword" /\
  ~ (exists v, env s_no_env !! "TestAdminPassword" = Some v /\
               fst (retrievePasswordSync admin_email s_no_env) = Ok v) /\
  fst (retrievePasswordSync admin_email s_no_env) = Ok "TestAdminPassword".
Proof.
  vm_compute. split; [reflexivity|]. split; [|reflexivity].
  intros [v [Hv _]]. discriminate Hv.
Qed.

(** C1 (amended): for an email that is not cached and whose secret key [k]
    in the map is non-empty, [retrievePasswordSync] and [retrievePassword]
    return the value of the environment variable [k] when it is set and
    non-empty; otherwise the value of [PASSWORD_<EMAIL>] (the email with
    every non-alphanumeric character replaced by [_], upper-cased) when
    that is set and non-empty; otherwise [k] itself. A cached email gets
    its cached password. *)
Theorem C1_password_resolution (s : state) (e : string) :
  (forall p, secretCache s !! e = Some p ->
     fst (retrievePasswordSync e s) = Ok p /\ fst (retrievePassword e s) = Resolved p) /\
  (forall k, secretCache s !! e = None -> secretKeys s !! e = Some k -> k <> "" ->
  (forall v, env s !! k = Some v -> v <> "" ->
     fst (retrievePasswordSync e s) = Ok v /\ fst (retrievePassword e s) = Resolved v) /\
  (JS.truthy (env s !! k) = false ->
   forall v, env s !! password_env_key e = Some v -> v <> "" ->
     fst (retrievePasswordSync e s) = Ok v /\ fst (retrievePassword e s) = Resolved v) /\
  (JS.truthy (env s !! k) = false -> JS.truthy (env s !! password_env_key e) = false ->
     fst (retrievePasswordSync e s) = Ok k /\ fst (retrievePassword e s) = Resolved k)).
Proof.
  split.
  { intros p Hc. rewrite retrievePassword_as_sync.
    unfold retrievePasswordSync. rewrite Hc. done. }
  intros k Hc Hk Hne.
  assert (Hsync : fst (retrievePasswordSync e s) =
    Ok (if JS.truthy (env s !! k) then default "" (env s !! k)
        else if JS.truthy (env s !! password_env_key e)
        then default "" (env s !! password_env_key e) else k)).
  { unfold retrievePasswordSync. rewrite Hc, Hk. unfold JS.truthy at 1.
    apply String.eqb_neq in Hne. rewrite Hne. reflexivity. }
  rewrite retrievePassword_as_sync. simpl. rewrite Hsync. simpl.
  split; [|split].
  - intros v Hv Hvne. rewrite Hv. unfold JS.truthy.
    apply String.eqb_neq in Hvne. rewrite Hvne. done.
  - intros Hf v Hv Hvne. rewrite Hf, Hv. unfold JS.truthy.
    apply String.eqb_neq in Hvne. rewrite Hvne. done.
  - intros Hf Hg. rewrite Hf, Hg. done.
Qed.

Lemma C1_password_resolution_witness :
  (secretCache s_env !! admin_email = None /\
   secretKeys s_env !! admin_email = Some "TestAdminPassword" /\
   "TestAdminPassword" <> "") /\
  fst (retrievePasswordSync admin_email s_env) = Ok "s3cret" /\
  (secretCache s_cached !! admin_email = Some "old" /\
   fst (retrievePasswordSync admin_email s_cached) = Ok "old").
Proof.
  assert (H1 : secretCache s_env !! admin_email = None) by (vm_compute; reflexivity).
  assert (H2 : secretKeys s_env !! admin_email = Some "TestAdminPassword")
    by (vm_compute; reflexivity).
  assert (H3 : "TestAdminPassword" <> "") by discriminate.
  split; [auto|]. split.
  - destruct (proj2 (C1_password_resolution s_env admin_email) "TestAdminPassword" H1 H2 H3)
      as [Hset _].
    apply Hset; [vm_compute; reflexivity | discriminate].
  - assert (H4 : secretCache s_cached !! admin_email = Some "old") by (vm_compute; reflexivity).
    split; [exact H4|].
    apply (proj1 (C1_password_resolution s_cached admin_email) "old" H4).
Defined.

(** C2 (counterexample): a call of [clearCache] between two retrievals of
    the same email makes the second one consult the secret map and the
    environment again; after the environment variable changed it returns
    a different password. *)
Lemma C2_counterexample :
  let s1 := snd (retrievePasswordSync admin_email s_env) in
  let s2 := run [ClearCache; SetEnv "TestAdminPassword" "rotated"] s1 in
  fst (retrievePasswordSync admin_email s_env) = Ok "s3cret" /\
  fst (retrievePasswordSync admin_email s2) = Ok "rotated".
Proof. vm_compute. split; reflexivity. Qed.

(** C2 (amended): after a successful [retrievePasswordSync] or
    [retrievePassword] for [e] returning [p], every later call for [e]
    returns [p], leaves the state unchanged, and gives [p] whatever the
    secret map and the environment then hold, as long as no [clearCache]
    and no [removeAccount(e)] happened in between (any other operations
    may: retrievals of any email, [addAccount], environment changes). *)
Theorem C2_memoized (e p : string) (s s1 : state) (ops : list op) :
  (retrievePasswordSync e s = (Ok p, s1) \/ retrievePassword e s = (Resolved p, s1)) ->
  Forall (fun o => evicts e o = false) ops ->
  let s2 := run ops s1 in
  retrievePasswordSync e s2 = (Ok p, s2) /\
  retrievePassword e s2 = (Resolved p, s2) /\
  (forall keys env', fst (retrievePasswordSync e (mkState (secretCache s2) keys env')) = Ok p).
Proof.
  intros Hfirst Hops s2.
  assert (H1 : secretCache s1 !! e = Some p).
  { destruct Hfirst as [H|H]; [by eapply retrievePasswordSync_caches|].
    rewrite retrievePassword_as_sync in H.
    destruct (retrievePasswordSync e s) as [[q|err] s1'] eqn:Hs; simpl in H;
      inversion H; subst. by eapply retrievePasswordSync_caches. }
  assert (H2 : secretCache s2 !! e = Some p) by (by apply (run_keeps_entry e p ops s1)).
  split; [|split].
  - by apply retrievePasswordSync_cached.
  - by apply retrievePassword_cached.
  - intros keys env'. by rewrite (retrievePasswordSync_cached e p).
Qed.

Lemma C2_memoized_witness :
  retrievePasswordSync admin_email
    (run [AddAccount admin_email "Other"; SetEnv "TestAdminPassword" "rotated"]
       (snd (retrievePasswordSync admin_email s_env))) =
    (Ok "s3cret", run [AddAccount admin_email "Other"; SetEnv "TestAdminPassword" "rotated"]
       (snd (retrievePasswordSync admin_email s_env))).
Proof.
  apply (C2_memoized admin_email "s3cret" s_env (snd (retrievePasswordSync admin_email s_env))).
  - left. vm_compute. reflexivity.
  - repeat constructor.
Defined.




(** C9: started from the same state, [retrievePassword] and
    [retrievePasswordSync] reject/throw with the same error under the
    same condition, resolve/return the same password otherwise, and end in
    the same state (so with the same cache). *)
Theorem C9_async_sync_equivalent (e : string) (s : state) :
  (forall err, fst (retrievePassword e s) = Rejected err <->
               fst (retrievePasswordSync e s) = Throw err) /\
  (forall p, fst (retrievePassword e s) = Resolved p <->
             fst (retrievePasswordSync e s) = Ok p) /\
  snd (retrievePassword e s) = snd (retrievePasswordSync e s).
Proof.
  rewrite retrievePassword_as_sync. simpl.
  destruct (fst (retrievePasswordSync e s)) as [q|err']; simpl.
  - split; [intros err; split; discriminate|split; [|reflexivity]].
    intros p; split; intros H; inversion H; reflexivity.
  - split; [|split; [intros p; split; discriminate|reflexivity]].
    intros err; split; intros H; inversion H; reflexivity.
Qed.

(** C10: a cached password shadows the secret map and the environment:
    after any operations other than [clearCache] and [removeAccount(e)]
    (including [addAccount(e, k')] and changes to the environment), both
    retrievals for [e] still return the cached value; [clearCache] and
    [removeAccount(e)] delete the cache entry. *)
Theorem C10_cache_shadows (e p : string) (s : state) (ops : list op) :
  secretCache s !! e = Some p ->
  Forall (fun o => evicts e o = false) ops ->
  let s2 := run ops s in
  retrievePasswordSync e s2 = (Ok p, s2) /\
  retrievePassword e s2 = (Resolved p, s2) /\
  secretCache (clearCache s2) !! e = None /\
  secretCache (removeAccount e s2) !! e = None.
Proof.
  intros Hc Hops s2.
  assert (H2 : secretCache s2 !! e = Some p) by (by apply (run_keeps_entry e p ops s)).
  split; [by apply retrievePasswordSync_cached|].
  split; [by apply retrievePassword_cached|].
  split; [reflexivity|]. simpl. apply lookup_delete_eq.
Qed.


Lemma C10_cache_shadows_witness :
  let s2 := run [AddAccount admin_email "NewKey"; SetEnv "NewKey" "new"] s_cached in
  retrievePasswordSync admin_email s2 = (Ok "old", s2).
Proof.
  intros s2.
  apply (C10_cache_shadows admin_email "old" s_cached
           [AddAccount admin_email "NewKey"; SetEnv "NewKey" "new"]).
  - vm_compute. reflexivity.
  - repeat constructor.
Defined.

End SecretManagerClaims.

Module RetryFacts.
Import Retry.

Section Loop.
  Variable userType : string.
  Variable maxAttempts : nat.
  Variable login : nat -> bool.

Lemma retry_loop_success (n a f : nat) :
    a + n < maxAttempts -> maxAttempts - a <= f ->
    (forall j, a <= j < a + n -> login j = false) -> login (a + n) = true ->
    retry_loop f userType maxAttempts a login = ((failed_from a n ++ [Attempt (a + n)])%list, Ok tt).
  Proof.
    revert a f. induction n as [|n IH]; intros a f Hlt Hf Hfail Hok.
    - destruct f as [|f]; [lia|]. simpl.
      replace (a + 0) with a in * by lia.
      assert (Hab : Nat.ltb a maxAttempts = true) by (apply Nat.ltb_lt; lia).
      rewrite Hab, Hok. reflexivity.
    - destruct f as [|f]; [lia|]. simpl.
      assert (Hab : Nat.ltb a maxAttempts = true) by (apply Nat.ltb_lt; lia).
      rewrite Hab, (Hfail a) by lia.
      assert (Hle : Nat.leb maxAttempts (S a) = false) by (apply Nat.leb_gt; lia).
      rewrite Hle.
      rewrite (IH (S a) f); [| lia | lia | intros j Hj; apply Hfail; lia
                            | replace (S a + n) with (a + S n) by lia; exact Hok].
      replace (S a + n) with (a + S n) by lia. reflexivity.
  Qed.

Lemma retry_loop_failure (n a f : nat) :
    a + S n = maxAttempts -> maxAttempts - a <= f ->
    (forall j, a <= j < maxAttempts -> login j = false) ->
    retry_loop f userType maxAttempts a login =
      ((failed_from a n ++ [Attempt (a + n)])%list, Throw (LoginFailed userType maxAttempts)).
  Proof.
    revert a f. induction n as [|n IH]; intros a f Heq Hf Hfail.
    - destruct f as [|f]; [lia|]. simpl.
      replace (a + 0) with a by lia.
      assert (Hab : Nat.ltb a maxAttempts = true) by (apply Nat.ltb_lt; lia).
      rewrite Hab, (Hfail a) by lia.
      assert (Hle : Nat.leb maxAttempts (S a) = true) by (apply Nat.leb_le; lia).
      rewrite Hle. reflexivity.
    - destruct f as [|f]; [lia|]. simpl.
      assert (Hab : Nat.ltb a maxAttempts = true) by (apply Nat.ltb_lt; lia).
      rewrite Hab, (Hfail a) by lia.
      assert (Hle : Nat.leb maxAttempts (S a) = false) by (apply Nat.leb_gt; lia).
      rewrite Hle.
      rewrite (IH (S a) f); [| lia | lia | intros j Hj; apply Hfail; lia].
      replace (S a + n) with (a + S n) by lia. reflexivity.
  Qed.

End Loop.

Lemma attempts_failed_from (a n x : nat) :
  attempts ((failed_from a n ++ [Attempt x])%list) = S n.
Proof.
  unfold attempts. revert a. induction n as [|n IH]; intros a; [reflexivity|].
  simpl. rewrite IH. reflexivity.
Qed.

(** Either some attempt below [m] is the first to succeed, or all fail. *)
Lemma first_success (login : nat -> bool) (m : nat) :
  (exists k, k < m /\ (forall j, j < k -> login j = false) /\ login k = true) \/
  (forall j, j < m -> login j = false).
Proof.
  induction m as [|m IH].
  - right. intros j Hj. lia.
  - destruct IH as [[k [Hk [Hbefore Hok]]]|Hall].
    + left. exists k. split; [lia|auto].
    + destruct (login m) eqn:Hm.
      * left. exists m. split; [lia|auto].
      * right. intros j Hj. destruct (Nat.eq_dec j m) as [->|Hne]; [exact Hm|].
        apply Hall. lia.
Qed.

End RetryFacts.

Module RetryClaims.
Import Retry RetryFacts.

Example retry_second_attempt :
  retryLogin UserLogin.EDITOR None (fun k => Nat.eqb k 1) =
    ([Attempt 0; Wait 2000; Attempt 1], Ok tt).
Proof. reflexivity. Qed.

(** C3: for every user type and every [maxAttempts >= 1], [retryLogin]
    either stops at the first attempt [k < maxAttempts] that succeeds,
    after [k] failed attempts each followed by a 2000 ms wait, and
    returns; or, when all [maxAttempts] attempts fail, it throws right
    after the last one, each earlier failure having been followed by a
    wait. It never starts more than [maxAttempts] attempts, and the
    default is [maxAttempts = 2]. *)
Theorem C3_retry_bounded (t : UserLogin.UserType) (m : nat) (login : nat -> bool) :
  1 <= m ->
  (forall k, k < m -> (forall j, j < k -> login j = false) -> login k = true ->
     retryLogin t (Some m) login = ((failed_from 0 k ++ [Attempt k])%list, Ok tt)) /\
  ((forall j, j < m -> login j = false) ->
     retryLogin t (Some m) login =
       ((failed_from 0 (m - 1) ++ [Attempt (m - 1)])%list,
        Throw (LoginFailed (UserLogin.UserType_value t) m))) /\
  attempts (fst (retryLogin t (Some m) login)) <= m /\
  retryLogin t None login = retryLogin t (Some 2) login.
Proof.
  intros Hm.
  assert (Hs : forall k, k < m -> (forall j, j < k -> login j = false) -> login k = true ->
     retryLogin t (Some m) login = ((failed_from 0 k ++ [Attempt k])%list, Ok tt)).
  { intros k Hk Hbefore Hok. unfold retryLogin.
    apply (retry_loop_success _ m login k 0 m); simpl; try lia; auto.
    intros j Hj. apply Hbefore. lia. }
  assert (Hf : (forall j, j < m -> login j = false) ->
     retryLogin t (Some m) login =
       ((failed_from 0 (m - 1) ++ [Attempt (m - 1)])%list,
        Throw (LoginFailed (UserLogin.UserType_value t) m))).
  { intros Hall. unfold retryLogin.
    apply (retry_loop_failure _ m login (m - 1) 0 m); try lia.
    intros j Hj. apply Hall. lia. }
  split; [exact Hs|split; [exact Hf|split; [|reflexivity]]].
  destruct (first_success login m) as [[k [Hk [Hbefore Hok]]]|Hall].
  - rewrite (Hs k Hk Hbefore Hok). simpl. rewrite attempts_failed_from. lia.
  - rewrite (Hf Hall). simpl. rewrite attempts_failed_from. lia.
Qed.

Lemma C3_retry_bounded_witness :
  retryLogin UserLogin.ADMIN (Some 3) (fun _ => false) =
    ([Attempt 0; Wait 2000; Attempt 1; Wait 2000; Attempt 2],
     Throw (LoginFailed "ADMIN" 3)).
Proof.
  destruct (C3_retry_bounded UserLogin.ADMIN 3 (fun _ => false)) as [_ [Hfail _]];
    [lia|].
  apply Hfail. reflexivity.
Defined.

End RetryClaims.

Module ConfigFacts.
Import Config.

(** Once the instance exists, every operation sees it; [GetSettings]
    sees the reference currently stored, and only [Reload] changes it. *)
Lemma cm_step_existing (i : nat) (o : cm_op) (h : heap) :
  instance h = Some i ->
  cm_step o h =
    match o with
    | GetInstance => (ObsInstance i, h)
    | GetSettings => (ObsSettings (settings_of h !! i), h)
    | Reload => (ObsUnit, reload i h)
    end.
Proof. intros Hi. unfold cm_step, getInstance. rewrite Hi. destruct o; reflexivity. Qed.

Lemma reload_instance (i : nat) (h : heap) : instance (reload i h) = instance h.
Proof. reflexivity. Qed.

Lemma run_cm_existing (i : nat) (ops : list cm_op) (h : heap) :
  instance h = Some i ->
  Forall (fun x => x = i) (instances_seen (fst (run_cm ops h))) /\
  (Reload ∉ ops ->
   Forall (fun x => x = settings_of h !! i) (settings_seen (fst (run_cm ops h)))).
Proof.
  revert h. induction ops as [|o ops IH]; intros h Hi; [split; constructor|].
  simpl. rewrite (cm_step_existing i o h Hi).
  destruct o; simpl.
  - destruct (IH h Hi) as [IH1 IH2].
    destruct (run_cm ops h) as [l h2]; simpl in *.
    split; [by constructor|]. intros Hn. apply IH2. set_solver.
  - destruct (IH h Hi) as [IH1 IH2].
    destruct (run_cm ops h) as [l h2]; simpl in *.
    split; [exact IH1|]. intros Hn. constructor; [reflexivity|]. apply IH2. set_solver.
  - destruct (IH (reload i h)) as [IH1 IH2]; [rewrite reload_instance; exact Hi|].
    destruct (run_cm ops (reload i h)) as [l h2]; simpl in *.
    split; [exact IH1|]. intros Hn. set_solver.
Qed.

Lemma run_cm_app (ops1 ops2 : list cm_op) (h : heap) :
  run_cm (ops1 ++ ops2)%list h =
  ((fst (run_cm ops1 h) ++ fst (run_cm ops2 (snd (run_cm ops1 h))))%list,
   snd (run_cm ops2 (snd (run_cm ops1 h)))).
Proof.
  revert h. induction ops1 as [|o ops1 IH]; intros h; simpl.
  - destruct (run_cm ops2 h); reflexivity.
  - destruct (cm_step o h) as [ob h1]. rewrite IH.
    destruct (run_cm ops1 h1) as [l1 h2]; simpl.
    destruct (run_cm ops2 h2) as [l2 h3]; reflexivity.
Qed.

Lemma run_cm_length (ops : list cm_op) (h : heap) : length (fst (run_cm ops h)) = length ops.
Proof.
  revert h. induction ops as [|o ops IH]; intros h; simpl; [reflexivity|].
  destruct (cm_step o h) as [ob h1]. specialize (IH h1).
  destruct (run_cm ops h1) as [l h2]; simpl in *. lia.
Qed.

Lemma run_cm_initial (o : cm_op) (ops : list cm_op) :
  run_cm (o :: ops) initial = run_cm (o :: ops) (mkHeap (Some 0) {[0 := 1]} 2).
Proof.
  assert (Hstep : cm_step o initial = cm_step o (mkHeap (Some 0) {[0 := 1]} 2))
    by (destruct o; reflexivity).
  simpl. rewrite Hstep. reflexivity.
Qed.

Lemma run_cm_reload (i : nat) (ops : list cm_op) (h : heap) :
  instance h = Some i ->
  run_cm (Reload :: ops) h =
  (ObsUnit :: fst (run_cm ops (reload i h)), snd (run_cm ops (reload i h))).
Proof.
  intros Hi.
  change (run_cm (Reload :: ops) h) with
    (let '(ob, h1) := cm_step Reload h in let '(obs, h2) := run_cm ops h1 in (ob :: obs, h2)).
  rewrite (cm_step_existing i Reload h Hi). cbv zeta beta iota.
  destruct (run_cm ops (reload i h)); reflexivity.
Qed.

Lemma run_cm_initial_ne (ops : list cm_op) :
  ops <> [] -> run_cm ops initial = run_cm ops (mkHeap (Some 0) {[0 := 1]} 2).
Proof. destruct ops as [|o ops]; [congruence|]. intros _. apply run_cm_initial. Qed.

Lemma run_cm_initial_fst (ops : list cm_op) :
  fst (run_cm ops initial) = fst (run_cm ops (mkHeap (Some 0) {[0 := 1]} 2)).
Proof. destruct ops as [|o ops]; [reflexivity|]. rewrite run_cm_initial. reflexivity. Qed.

Lemma run_cm_no_reload (i : nat) (ops : list cm_op) (h : heap) :
  instance h = Some i -> Reload ∉ ops -> snd (run_cm ops h) = h.
Proof.
  revert h. induction ops as [|o ops IH]; intros h Hi Hn; [reflexivity|].
  simpl. rewrite (cm_step_existing i o h Hi).
  destruct o; [| |set_solver]; simpl;
    (destruct (run_cm ops h) as [l h2] eqn:Hr; simpl;
     change h2 with (snd (l, h2)); rewrite <- Hr; apply IH; [exact Hi|set_solver]).
Qed.

Lemma reload_constructed (h : heap) :
  constructed h ->
  constructed (reload 0 h) /\ settings_of (reload 0 h) !! 0 = Some (next_obj h) /\
  next_obj h < next_obj (reload 0 h).
Proof.
  intros [Hi _]. unfold reload, loadConfiguration, alloc, constructed; simpl.
  rewrite lookup_insert_eq. split; [split; [exact Hi|eexists; split; [reflexivity|lia]]|].
  split; [reflexivity|lia].
Qed.

Lemma run_cm_constructed (ops : list cm_op) (h : heap) :
  constructed h ->
  constructed (snd (run_cm ops h)) /\ next_obj h <= next_obj (snd (run_cm ops h)) /\
  Forall (fun so => exists x, so = Some x /\ x < next_obj (snd (run_cm ops h)))
    (settings_seen (fst (run_cm ops h))).
Proof.
  revert h. induction ops as [|o ops IH]; intros h Hc; [simpl; split; [exact Hc|split; [lia|constructor]]|].
  simpl. rewrite (cm_step_existing 0 o h (proj1 Hc)).
  destruct o; simpl.
  - destruct (IH h Hc) as (H1 & H2 & H3).
    destruct (run_cm ops h) as [l h2]; simpl in *. auto.
  - destruct (IH h Hc) as (H1 & H2 & H3).
    destruct (run_cm ops h) as [l h2]; simpl in *.
    split; [exact H1|]. split; [exact H2|]. constructor; [|exact H3].
    destruct Hc as [_ [x [Hx Hlt]]]. exists x. split; [exact Hx|lia].
  - destruct (reload_constructed h Hc) as (Hc' & _ & Hlt).
    destruct (IH (reload 0 h) Hc') as (H1 & H2 & H3).
    destruct (run_cm ops (reload 0 h)) as [l h2]; simpl in *.
    split; [exact H1|]. split; [lia|exact H3].
Qed.

End ConfigFacts.

Module ConfigClaims.
Import Config ConfigFacts.

Example getInstance_initial :
  getInstance initial = (0, mkHeap (Some 0) {[0 := 1]} 2).
Proof. reflexivity. Qed.

(** C5 (counterexample): a component reads the settings, another calls
    [reload()], and a third reads the settings again: the two reads return
    different settings objects (object 1, then object 2), although the
    manager instance is the same. *)
Lemma C5_counterexample :
  fst (run_cm [GetSettings; Reload; GetSettings; GetInstance] initial) =
    [ObsSettings (Some 1); ObsUnit; ObsSettings (Some 2); ObsInstance 0].
Proof. reflexivity. Qed.

(** C5 (amended): the static instance is absent before the first
    [getInstance]; that call constructs the manager and loads a settings
    object; along any sequence of calls every [getInstance] returns that
    same manager. Every [getSettings] returns the settings object loaded
    at construction until [reload()] is called (whatever comes later), and
    each [reload()] installs a new settings object, different from every
    one seen before, that the [getSettings] calls after it return until
    the next [reload()]. *)
Theorem C5_singleton :
  let '(i0, h1) := getInstance initial in
  instance initial = None /\
  instance h1 = Some i0 /\ is_Some (getSettings i0 h1) /\
  (forall ops, Forall (fun x => x = i0) (instances_seen (fst (run_cm ops initial)))) /\
  (forall ops1 ops2, Reload ∉ ops1 ->
   Forall (fun x => x = getSettings i0 h1)
     (settings_seen (take (length ops1) (fst (run_cm (ops1 ++ ops2)%list initial))))) /\
  (forall ops1 ops2, Reload ∉ ops2 ->
   let obs := fst (run_cm (ops1 ++ Reload :: ops2)%list initial) in
   let s_new := getSettings i0 (snd (run_cm (ops1 ++ [Reload])%list initial)) in
   is_Some s_new /\ s_new <> getSettings i0 h1 /\
   (s_new ∉ settings_seen (take (length ops1) obs)) /\
   Forall (fun x => x = s_new) (settings_seen (drop (S (length ops1)) obs))).
Proof.
  change (getInstance initial) with (0, mkHeap (Some 0) {[0 := 1]} 2).
  cbv zeta beta iota.
  assert (Hc1 : constructed (mkHeap (Some 0) {[0 := 1]} 2))
    by (split; [reflexivity|exists 1; split; [reflexivity|simpl; lia]]).
  set (h1 := mkHeap (Some 0) {[0 := 1]} 2) in *.
  split; [reflexivity|]. split; [reflexivity|]. split; [eexists; reflexivity|].
  split; [|split].
  - intros ops. rewrite run_cm_initial_fst. apply (run_cm_existing 0 ops h1 eq_refl).
  - intros ops1 ops2 Hn.
    rewrite run_cm_initial_fst, run_cm_app. simpl.
    rewrite <- (run_cm_length ops1 h1), take_app_length.
    apply (run_cm_existing 0 ops1 h1 eq_refl), Hn.
  - intros ops1 ops2 Hn. cbv zeta.
    destruct (run_cm_constructed ops1 h1 Hc1) as (Hc' & Hmono & Hseen).
    set (h' := snd (run_cm ops1 h1)) in *.
    destruct (reload_constructed h' Hc') as (Hc'' & Hnew & Hlt).
    assert (Hsnd : snd (run_cm (ops1 ++ [Reload])%list initial) = reload 0 h').
    { rewrite run_cm_initial_ne by (destruct ops1; discriminate).
      rewrite run_cm_app. fold h1. fold h'. cbn [snd].
      rewrite (run_cm_reload 0 [] h' (proj1 Hc')). reflexivity. }
    rewrite Hsnd. unfold getSettings. rewrite Hnew.
    rewrite run_cm_initial_fst, run_cm_app. fold h1. fold h'.
    rewrite (run_cm_reload 0 ops2 h' (proj1 Hc')). cbn [fst].
    pose proof (run_cm_existing 0 ops2 (reload 0 h') (proj1 Hc'')) as [_ Hrest].
    destruct (run_cm ops2 (reload 0 h')) as [l2 h2] eqn:Hr2. cbn [fst snd] in Hrest |- *.
    rewrite <- (run_cm_length ops1 h1), take_app_length.
    replace (S (length (fst (run_cm ops1 h1))))
      with (length (fst (run_cm ops1 h1) ++ [ObsUnit])%list) by (rewrite length_app; simpl; lia).
    replace (fst (run_cm ops1 h1) ++ ObsUnit :: l2)%list
      with ((fst (run_cm ops1 h1) ++ [ObsUnit]) ++ l2)%list by (rewrite <- app_assoc; reflexivity).
    rewrite drop_app_length.
    split; [eexists; reflexivity|]. split.
    { change (settings_of h1 !! 0) with (Some 1). intros [= Heq].
      change (next_obj h1) with 2 in Hmono. lia. }
    split.
    + intros Hin. rewrite Forall_forall in Hseen. destruct (Hseen _ Hin) as [x [[= <-] Hx]].
      fold h' in Hx. lia.
    + rewrite <- Hnew. apply Hrest, Hn.
Qed.

Lemma C5_singleton_witness :
  Forall (fun x => x = Some 1)
    (settings_seen (take 2 (fst (run_cm [GetSettings; GetInstance; Reload; GetSettings] initial)))) /\
  getSettings 0 (snd (run_cm [GetSettings; GetInstance; Reload] initial)) = Some 2 /\
  Forall (fun x => x = Some 2)
    (settings_seen (drop 3 (fst (run_cm [GetSettings; GetInstance; Reload; GetSettings] initial)))).
Proof.
  pose proof C5_singleton as H.
  change (getInstance initial) with (0, mkHeap (Some 0) {[0 := 1]} 2) in H.
  cbv zeta beta iota in H. destruct H as [_ [_ [_ [_ [Hpre Hpost]]]]].
  split; [apply (Hpre [GetSettings; GetInstance] [Reload; GetSettings]); set_solver|].
  destruct (Hpost [GetSettings; GetInstance] [GetSettings]) as [_ [_ [_ Hl]]]; [set_solver|].
  split; [reflexivity|]. exact Hl.
Defined.

End ConfigClaims.

Module UserLoginClaims.
Import UserLogin Fixtures.


Lemma all_roles_complete (t : UserType) : t ∈ all_roles.
Proof. destruct t; unfold all_roles; set_solver. Qed.


Example admin_credentials :
  fst (getUserCredentials test_emails ADMIN s_env) =
    Ok (mkCredentials "admin_test@publicinput.org" "s3cret" ADMIN).
Proof. vm_compute. reflexivity. Qed.

(** C6: the enum has exactly the six roles, listed by [getAllUserTypes]
    without repetition and displayed as Super Admin, Admin, Data Viewer,
    Editor, None, Publisher; for each member, [loginAsUser] on its value
    dispatches to a login routine of that same role (never to the
    "Unsupported user type" error), and the credentials that routine uses
    are the role's configured email with the password
    [retrievePasswordSync] resolves for it. *)
Theorem C6_user_types (userEmails : gmap string string) (s : SecretManager.state) :
  getAllUserTypes = ["SUPER_ADMIN"; "ADMIN"; "DATA_VIEWER"; "EDITOR"; "NONE"; "PUBLISHER"] /\
  NoDup getAllUserTypes /\
  (forall t, UserType_value t ∈ getAllUserTypes) /\
  map getUserTypeDisplayName all_roles =
    ["Super Admin"; "Admin"; "Data Viewer"; "Editor"; "None"; "Publisher"] /\
  (forall t customerId, exists r,
     loginAsUser (UserType_value t) customerId = Ok r /\ routine_user_type r = t) /\
  (forall t cred s1,
     getUserCredentials userEmails t s = (Ok cred, s1) ->
     userEmails !! UserType_value t = Some (email cred) /\ userType cred = t /\
     SecretManager.retrievePasswordSync (email cred) s = (Ok (password cred), s1)) /\
  (forall t e p s1,
     userEmails !! UserType_value t = Some e -> e <> "" ->
     SecretManager.retrievePasswordSync e s = (Ok p, s1) ->
     getUserCredentials userEmails t s = (Ok (mkCredentials e p t), s1)).
Proof.
  split; [reflexivity|]. split; [vm_compute; repeat constructor; set_solver|].
  split; [intros t; destruct t; vm_compute; set_solver|].
  split; [reflexivity|]. split.
  { intros t c. destruct t; simpl; eexists; split; reflexivity. }
  split.
  - intros t cred s1. unfold getUserCredentials.
    destruct (userEmails !! UserType_value t) as [e|] eqn:He; simpl; [|discriminate].
    destruct (String.eqb e "") eqn:Hne; simpl; [discriminate|].
    destruct (SecretManager.retrievePasswordSync e s) as [[p|err] s1'] eqn:Hr;
      [|discriminate].
    intros [= <- <-]. simpl. auto.
  - intros t e p s1 He Hne Hr. unfold getUserCredentials. rewrite He. simpl.
    apply String.eqb_neq in Hne. rewrite Hne. simpl. rewrite Hr. reflexivity.
Qed.

Lemma C6_user_types_witness :
  getUserCredentials test_emails ADMIN s_env =
    (Ok (mkCredentials "admin_test@publicinput.org" "s3cret" ADMIN),
     snd (SecretManager.retrievePasswordSync "admin_test@publicinput.org"
            s_env)).
Proof.
  destruct (C6_user_types test_emails s_env)
    as [_ [_ [_ [_ [_ [_ Hconv]]]]]].
  apply Hconv.
  - vm_compute. reflexivity.
  - discriminate.
  - vm_compute. reflexivity.
Defined.

End UserLoginClaims.

Module SegmentationClaims.
Import Segmentation Fixtures.

Example parse_count_example : parse_count "1,234 members" = 1234.
Proof. reflexivity. Qed.

Example parse_count_nan : parse_count "none" = 0.
Proof. reflexivity. Qed.


(** C4 (code_bug evidence): [SegmentationPage] reads the total count and
    the potential members count through the same selector
    [xpath=//span[@id="mcount"]] (its CRMPage sibling uses two different
    ones), so [verifyTotalCountEqualsPotentialCount] returns true on every
    page, including one whose two displayed counts differ. *)
Theorem C4_count_check_reads_one_element :
  totalCountElement = potentialSegmentMembersCount /\
  crm_totalCountElement <> crm_potentialSegmentMembersCount /\
  (forall p : page, verifyTotalCountEqualsPotentialCount p = true) /\
  parse_count "Total: 10" <> parse_count "25" /\
  verifyTotalCountEqualsPotentialCount page_mismatch = true.
Proof.
  assert (Hsame : totalCountElement = potentialSegmentMembersCount) by reflexivity.
  assert (Hall : forall p : page, verifyTotalCountEqualsPotentialCount p = true).
  { intros p. unfold verifyTotalCountEqualsPotentialCount,
      getTotalCountBelowMembersTable, getPotentialSegmentMembersCount.
    rewrite <- Hsame. apply Nat.eqb_refl. }
  split; [exact Hsame|]. split; [vm_compute; discriminate|].
  split; [exact Hall|]. split; [vm_compute; discriminate|]. apply Hall.
Qed.

End SegmentationClaims.

Module BasePageClaims.
Import BasePage Fixtures.


Example late_element : isElementVisible (fun _ => VisibleAfter 6000) "#x" = Resolved false.
Proof. reflexivity. Qed.

(** C8 (counterexample): [verifyTabOpen] is built on [isElementVisible]
    but rejects with "Unknown tab name" for a tab name outside Email,
    Text, Participants, Comments, Subscribers, even on a page where every
    element is visible. *)
Lemma C8_counterexample :
  verifyTabOpen all_visible "Settings" = Rejected (UnknownTabName "Settings").
Proof. reflexivity. Qed.

(** C8 (amended): [isElementVisible] never rejects: it resolves to true
    exactly when the element becomes visible within 5000 ms and to false
    otherwise (timeout, never visible, browser failure). The verify
    methods that return [isElementVisible(sel)] or its negation are total;
    [verifyTabOpen] is total on the five tab names (in any letter case) and
    rejects every other name. *)
Theorem C8_isElementVisible_total (b : browser) (sel tabName : string) :
  (isElementVisible b sel = Resolved true <->
     exists ms, b sel = VisibleAfter ms /\ ms <= 5000) /\
  (isElementVisible b sel = Resolved false <->
     ~ exists ms, b sel = VisibleAfter ms /\ ms <= 5000) /\
  (exists v, verify_visible sel b = Resolved v) /\
  (exists v, verify_not_visible sel b = Resolved v) /\
  ((exists v, verifyTabOpen b tabName = Resolved v) <->
     JS.toLowerCase tabName ∈ ["email"; "text"; "participants"; "comments"; "subscribers"]) /\
  (forall e, verifyTabOpen b tabName = Rejected e -> e = UnknownTabName tabName).
Proof.
  assert (Hvis : isElementVisible b sel = Resolved true <->
     exists ms, b sel = VisibleAfter ms /\ ms <= 5000).
  { unfold isElementVisible, waitForSelector.
    destruct (b sel) as [ms| |]; simpl.
    - destruct (Nat.leb ms 5000) eqn:Hle.
      + apply Nat.leb_le in Hle. split; [intros _; eauto|reflexivity].
      + apply Nat.leb_gt in Hle. split; [discriminate|intros [x [Hx Hx']]].
        inversion Hx; subst. lia.
    - split; [discriminate|intros [x [Hx _]]; discriminate].
    - split; [discriminate|intros [x [Hx _]]; discriminate]. }
  assert (Htot : forall s, exists v, isElementVisible b s = Resolved v).
  { intros s. unfold isElementVisible.
    destruct (waitForSelector b s 5000); eexists; reflexivity. }
  split; [exact Hvis|]. split.
  { destruct (Htot sel) as [[|] Hv]; rewrite Hv.
    - split; [discriminate|]. intros Hn. exfalso. apply Hn, Hvis, Hv.
    - split; [intros _ Hex; apply Hvis in Hex; congruence|reflexivity]. }
  split; [apply Htot|]. split.
  { unfold verify_not_visible. destruct (Htot sel) as [v Hv]. rewrite Hv. eauto. }
  unfold verifyTabOpen.
  destruct (String.eqb (JS.toLowerCase tabName) "email") eqn:H1;
    [apply String.eqb_eq in H1; rewrite H1;
     split; [split; [intros _; set_solver|intros _; apply Htot]|
             intros e He; destruct (Htot emailTabContent) as [v Hv]; congruence]|].
  destruct (String.eqb (JS.toLowerCase tabName) "text") eqn:H2;
    [apply String.eqb_eq in H2; rewrite H2;
     split; [split; [intros _; set_solver|intros _; apply Htot]|
             intros e He; destruct (Htot textTabContent) as [v Hv]; congruence]|].
  destruct (String.eqb (JS.toLowerCase tabName) "participants") eqn:H3;
    [apply String.eqb_eq in H3; rewrite H3;
     split; [split; [intros _; set_solver|intros _; apply Htot]|
             intros e He; destruct (Htot participantsTabContent) as [v Hv]; congruence]|].
  destruct (String.eqb (JS.toLowerCase tabName) "comments") eqn:H4;
    [apply String.eqb_eq in H4; rewrite H4;
     split; [split; [intros _; set_solver|intros _; apply Htot]|
             intros e He; destruct (Htot commentsTabContent) as [v Hv]; congruence]|].
  destruct (String.eqb (JS.toLowerCase tabName) "subscribers") eqn:H5;
    [apply String.eqb_eq in H5; rewrite H5;
     split; [split; [intros _; set_solver|intros _; apply Htot]|
             intros e He; destruct (Htot subscriptionsTabContent) as [v Hv]; congruence]|].
  apply String.eqb_neq in H1, H2, H3, H4, H5.
  split; [split; [intros [v Hv]; discriminate|intros Hin]|intros e He; inversion He; reflexivity].
  exfalso. set_solver.
Qed.

Lemma C8_isElementVisible_total_witness :
  exists v, verifyTabOpen all_visible "Comments" = Resolved v.
Proof.
  destruct (C8_isElementVisible_total all_visible "#x" "Comments")
    as [_ [_ [_ [_ [Htab _]]]]].
  apply Htab. vm_compute. set_solver.
Defined.

End BasePageClaims.

Module SettingsHeapFacts.
Import SettingsHeap.

Lemma startsWith_app (pre h : string) : JS2.startsWith pre (pre ++ h) = true.
Proof. induction pre as [|c pre IH]; simpl; [reflexivity|]. rewrite Ascii.eqb_refl; exact IH. Qed.

Lemma startsWith_inv (pre s : string) : JS2.startsWith pre s = true -> exists h, s = pre ++ h.
Proof.
  revert s; induction pre as [|c pre IH]; intros s H; [exists s; reflexivity|].
  destruct s as [|d s]; simpl in H; [discriminate|].
  apply andb_prop in H as [Hc H]. apply Ascii.eqb_eq in Hc as ->.
  destruct (IH s H) as [h ->]. exists h; reflexivity.
Qed.

Lemma substring_all (h : string) : String.substring 0 (String.length h) h = h.
Proof. induction h as [|c h IH]; simpl; [reflexivity|]. rewrite IH; reflexivity. Qed.

Lemma substring_app (pre h : string) (m : nat) :
  String.substring (String.length pre) m (pre ++ h) = String.substring 0 m h.
Proof. induction pre as [|c pre IH]; simpl; [destruct m; reflexivity|exact IH]. Qed.

Lemma replace_first_prefix (h : string) :
  JS2.replace_first "USER_SECRET_" "" ("USER_SECRET_" ++ h) = h.
Proof.
  unfold JS2.replace_first.
  replace (JS2.indexOf "USER_SECRET_" ("USER_SECRET_" ++ h)) with (Some 0)
    by reflexivity.
  replace (String.length ("USER_SECRET_" ++ h) - (0 + String.length "USER_SECRET_"))
    with (String.length h) by (simpl; symmetry; apply Nat.sub_0_r).
  rewrite Nat.add_0_l, substring_app, substring_all. reflexivity.
Qed.

Lemma load_secret_lookup (m : gmap string string) (K v e : string) :
  load_secret m (K, v) !! e =
  if bool_decide (K = "USER_SECRET_" ++ e) && JS.truthy (Some v) then Some v else m !! e.
Proof.
  unfold load_secret.
  destruct (JS2.startsWith "USER_SECRET_" K) eqn:Hp.
  - destruct (startsWith_inv _ _ Hp) as [h ->]. rewrite replace_first_prefix.
    destruct (bool_decide_reflect ("USER_SECRET_" ++ h = "USER_SECRET_" ++ e)) as [Heq|Hne].
    + apply (inj (String.append "USER_SECRET_")) in Heq. subst h.
      destruct (JS.truthy (Some v)); [apply lookup_insert_eq|reflexivity].
    + destruct (JS.truthy (Some v)); [|reflexivity].
      apply lookup_insert_ne. intros ->. apply Hne; reflexivity.
  - destruct (bool_decide_reflect (K = "USER_SECRET_" ++ e)) as [->|]; simpl; [|reflexivity].
    rewrite startsWith_app in Hp; discriminate.
Qed.

Lemma fold_load_lookup (l : list (string * string)) (m : gmap string string) (e : string) :
  NoDup l.*1 ->
  fold_left load_secret l m !! e =
  match (list_to_map l : gmap string string) !! ("USER_SECRET_" ++ e) with
  | Some v => if JS.truthy (Some v) then Some v else m !! e
  | None => m !! e
  end.
Proof.
  revert m; induction l as [|[K v] l IH]; intros m Hnd; [reflexivity|].
  cbn [fold_left]. rewrite list_to_map_cons.
  simpl in Hnd. apply NoDup_cons in Hnd as [HK Hnd].
  rewrite (IH _ Hnd).
  destruct (decide (K = "USER_SECRET_" ++ e)) as [->|Hne].
  - rewrite (not_elem_of_list_to_map_1 l _ HK), lookup_insert_eq.
    rewrite load_secret_lookup, bool_decide_true by reflexivity. simpl.
    destruct (JS.truthy (Some v)); reflexivity.
  - rewrite lookup_insert_ne by congruence.
    rewrite load_secret_lookup, bool_decide_false by exact Hne. reflexivity.
Qed.

Lemma load_secrets_lookup (env keys : gmap string string) (e : string) :
  loadUserAccountSecrets env keys !! e =
  match env !! ("USER_SECRET_" ++ e) with
  | Some v => if JS.truthy (Some v) then Some v else keys !! e
  | None => keys !! e
  end.
Proof.
  unfold loadUserAccountSecrets.
  rewrite fold_load_lookup by apply NoDup_fst_map_to_list.
  rewrite list_to_map_to_list. reflexivity.
Qed.

Lemma wf_initial : wf initial.
Proof.
  unfold wf, initial; simpl. repeat split.
  - intros sid so H. apply lookup_singleton_Some in H as [_ <-]. reflexivity.
  - eexists; reflexivity.
  - eexists; reflexivity.
  - intros sid H; discriminate.
Qed.

Lemma loadConfiguration_wf_eq (env : gmap string string) (st : store) :
  wf st ->
  loadConfiguration env st =
  mkStore (<[next_ref st := mkSettingsObj 1 3]> (settings_objs st)) (secret_maps st)
    (alter (loadUserAccountSecrets env) 2 (keys_objs st))
    (alter (browser_overrides env) 3 (browser_objs st))
    (Some (next_ref st)) (S (next_ref st)).
Proof.
  intros (Hso & Hdef & Hsm & Hk & Hb & Hc).
  unfold loadConfiguration, buildSettingsFromEnvironment. rewrite Hdef.
  unfold browser_ref. cbn [settings_objs]. rewrite lookup_insert_eq. cbn [fmap option_fmap option_map browserSettings].
  unfold modify_browser, with_browsers, keys_ref. cbn [settings_objs secret_maps].
  rewrite lookup_insert_eq. cbn [mbind option_bind userAccountSecretMap]. rewrite Hsm.
  reflexivity.
Qed.

Lemma wf_load (env : gmap string string) (st : store) :
  wf st -> wf (loadConfiguration env st).
Proof.
  intros Hw. rewrite (loadConfiguration_wf_eq env st Hw).
  destruct Hw as (Hso & Hdef & Hsm & Hk & Hb & Hc).
  unfold wf; simpl. repeat split.
  - intros sid so H. apply lookup_insert_Some in H as [[_ <-]|[_ H]]; [reflexivity|eauto].
  - destruct (decide (next_ref st = DEFAULT_APP_SETTINGS)) as [->|Hn];
      [apply lookup_insert_eq|rewrite lookup_insert_ne by exact Hn; exact Hdef].
  - exact Hsm.
  - rewrite lookup_alter_eq. destruct Hk as [m ->]. eexists; reflexivity.
  - rewrite lookup_alter_eq. destruct Hb as [b ->]. eexists; reflexivity.
  - intros sid [= <-]. rewrite lookup_insert_eq. eexists; reflexivity.
Qed.

Lemma keys_ref_wf (st : store) (sid : nat) :
  wf st -> is_Some (settings_objs st !! sid) -> keys_ref st sid = Some 2.
Proof.
  intros (Hso & _ & Hsm & _) [so Hs]. unfold keys_ref. rewrite Hs. simpl.
  rewrite (Hso _ _ Hs). exact Hsm.
Qed.

Lemma browser_ref_wf (st : store) (sid : nat) :
  wf st -> is_Some (settings_objs st !! sid) -> browser_ref st sid = Some 3.
Proof.
  intros (Hso & _) [so Hs]. unfold browser_ref. rewrite Hs. simpl.
  rewrite (Hso _ _ Hs). reflexivity.
Qed.

Lemma addAccount_wf_eq (e k : string) (st : store) :
  wf st -> is_Some (current st) ->
  addAccount e k st = with_keys st (alter (insert e k) 2 (keys_objs st)).
Proof.
  intros Hw [sid Hcur]. unfold addAccount. rewrite Hcur.
  rewrite (keys_ref_wf st sid Hw) by (apply (proj2 (proj2 (proj2 (proj2 (proj2 Hw))))); exact Hcur).
  reflexivity.
Qed.

Lemma removeAccount_wf_eq (e : string) (st : store) :
  wf st -> is_Some (current st) ->
  removeAccount e st = with_keys st (alter (delete e) 2 (keys_objs st)).
Proof.
  intros Hw [sid Hcur]. unfold removeAccount. rewrite Hcur.
  rewrite (keys_ref_wf st sid Hw) by (apply (proj2 (proj2 (proj2 (proj2 (proj2 Hw))))); exact Hcur).
  reflexivity.
Qed.

Lemma wf_with_keys (st : store) (f : gmap string string -> gmap string string) :
  wf st -> wf (with_keys st (alter f 2 (keys_objs st))).
Proof.
  intros (Hso & Hdef & Hsm & Hk & Hb & Hc). unfold wf, with_keys; simpl.
  repeat split; try assumption.
  rewrite lookup_alter_eq. destruct Hk as [m ->]. eexists; reflexivity.
Qed.

Lemma ready_step (st : store) (o : sop) : ready st -> ready (sstep st o).
Proof.
  intros [Hw Hc]. destruct o as [env|e k|e]; simpl.
  - split; [apply wf_load, Hw|]. rewrite (loadConfiguration_wf_eq env st Hw). eexists; reflexivity.
  - rewrite (addAccount_wf_eq e k st Hw Hc). split; [apply wf_with_keys, Hw|exact Hc].
  - rewrite (removeAccount_wf_eq e st Hw Hc). split; [apply wf_with_keys, Hw|exact Hc].
Qed.

Lemma ready_boot (env0 : gmap string string) (ops : list sop) : ready (boot env0 ops).
Proof.
  unfold boot.
  assert (H0 : ready (loadConfiguration env0 initial)).
  { split; [apply wf_load, wf_initial|].
    rewrite (loadConfiguration_wf_eq env0 initial wf_initial). eexists; reflexivity. }
  revert H0. generalize (loadConfiguration env0 initial).
  induction ops as [|o ops IH]; intros st H; simpl; [exact H|]. apply IH, ready_step, H.
Qed.

Lemma secret_key_via_wf (st : store) (sid : nat) (e : string) :
  wf st -> is_Some (settings_objs st !! sid) ->
  secret_key_via st sid e = keys_objs st !! 2 ≫= fun m => m !! e.
Proof. intros Hw Hs. unfold secret_key_via. rewrite (keys_ref_wf st sid Hw Hs). reflexivity. Qed.

Lemma current_secret_key_ready (st : store) (e : string) :
  ready st -> current_secret_key st e = keys_objs st !! 2 ≫= fun m => m !! e.
Proof.
  intros [Hw [sid Hc]]. unfold current_secret_key. rewrite Hc. simpl.
  apply secret_key_via_wf; [exact Hw|]. apply (proj2 (proj2 (proj2 (proj2 (proj2 Hw))))); exact Hc.
Qed.

Lemma current_browser_ready (st : store) :
  ready st -> current_browser st = browser_objs st !! 3.
Proof.
  intros [Hw [sid Hc]]. unfold current_browser. rewrite Hc. simpl.
  rewrite (browser_ref_wf st sid Hw); [reflexivity|].
  apply (proj2 (proj2 (proj2 (proj2 (proj2 Hw))))); exact Hc.
Qed.

(** [SecretManager.addAccount] writes into the secret map shared by every
    settings object: the account is seen through the current settings and
    through [DEFAULT_APP_SETTINGS] itself. *)
Theorem addAccount_shared (env0 : gmap string string) (ops : list sop) (e k : string) :
  current_secret_key (addAccount e k (boot env0 ops)) e = Some k /\
  secret_key_via (addAccount e k (boot env0 ops)) DEFAULT_APP_SETTINGS e = Some k.
Proof.
  destruct (ready_boot env0 ops) as [Hw Hc].
  rewrite (addAccount_wf_eq e k _ Hw Hc).
  pose proof (wf_with_keys _ (insert e k) Hw) as Hw'.
  destruct (proj1 (proj2 (proj2 (proj2 Hw)))) as [m Hm].
  split.
  - rewrite current_secret_key_ready by (split; [exact Hw'|exact Hc]).
    simpl. rewrite lookup_alter_eq, Hm. simpl. apply lookup_insert_eq.
  - rewrite secret_key_via_wf; [|exact Hw'|simpl; rewrite (proj1 (proj2 Hw)); eexists; reflexivity].
    simpl. rewrite lookup_alter_eq, Hm. simpl. apply lookup_insert_eq.
Qed.

Lemma reload_lookup (env : gmap string string) (st : store) (e : string) :
  ready st ->
  current_secret_key (loadConfiguration env st) e =
  match env !! ("USER_SECRET_" ++ e) with
  | Some v => if JS.truthy (Some v) then Some v else current_secret_key st e
  | None => current_secret_key st e
  end.
Proof.
  intros Hr.
  assert (Hr' : ready (loadConfiguration env st)) by (apply (ready_step _ (SReload env)), Hr).
  rewrite (current_secret_key_ready _ e Hr'), (current_secret_key_ready _ e Hr).
  rewrite (loadConfiguration_wf_eq env _ (proj1 Hr)). simpl.
  rewrite lookup_alter_eq. destruct (proj1 (proj2 (proj2 (proj2 (proj1 Hr))))) as [m ->]. simpl.
  apply load_secrets_lookup.
Qed.

Lemma reload_browser (env : gmap string string) (st : store) :
  ready st ->
  current_browser (loadConfiguration env st) = browser_overrides env <$> current_browser st.
Proof.
  intros Hr.
  assert (Hr' : ready (loadConfiguration env st)) by (apply (ready_step _ (SReload env)), Hr).
  rewrite (current_browser_ready _ Hr'), (current_browser_ready _ Hr).
  rewrite (loadConfiguration_wf_eq env _ (proj1 Hr)). simpl.
  apply lookup_alter_eq.
Qed.

(** [loadUserAccountSecrets] sets the secret key of [email] exactly when
    [USER_SECRET_<email>] is set to a non-empty value; every other entry
    of the map it writes into is left as it was. *)
Theorem loadUserAccountSecrets_lookup (env keys : gmap string string) (e : string) :
  loadUserAccountSecrets env keys !! e =
  match env !! ("USER_SECRET_" ++ e) with
  | Some v => if JS.truthy (Some v) then Some v else keys !! e
  | None => keys !! e
  end.
Proof. apply load_secrets_lookup. Qed.

(** [reload()] does not start again from the default secret map: the
    map it leaves is the one in use before, with the [USER_SECRET_]
    variables of the new environment written over it. *)
Theorem reload_keeps_secret_map (env0 env : gmap string string) (ops : list sop) (e : string) :
  current_secret_key (loadConfiguration env (boot env0 ops)) e =
  match env !! ("USER_SECRET_" ++ e) with
  | Some v => if JS.truthy (Some v) then Some v else current_secret_key (boot env0 ops) e
  | None => current_secret_key (boot env0 ops) e
  end.
Proof. apply reload_lookup, ready_boot. Qed.

(** Likewise the browser settings after [reload()] are the previous ones
    with the new environment's overrides applied, not the defaults with
    them applied. *)
Theorem reload_keeps_browser (env0 env : gmap string string) (ops : list sop) :
  current_browser (loadConfiguration env (boot env0 ops)) =
  browser_overrides env <$> current_browser (boot env0 ops).
Proof. apply reload_browser, ready_boot. Qed.

Lemma ready_first_load (env : gmap string string) : ready (loadConfiguration env initial).
Proof. exact (ready_boot env []). Qed.

(** An account removed with [removeAccount] (a default one included)
    stays removed after [reload()], unless the new environment sets
    [USER_SECRET_<email>] to a non-empty value. *)
Theorem removeAccount_survives_reload (env0 env : gmap string string) (ops : list sop)
    (e : string) :
  JS.truthy (env !! ("USER_SECRET_" ++ e)) = false ->
  current_secret_key (loadConfiguration env (removeAccount e (boot env0 ops))) e = None.
Proof.
  intros Ht.
  pose proof (ready_boot env0 ops) as Hr.
  pose proof (ready_step _ (SRemove e) Hr) as Hr'. simpl in Hr'.
  rewrite (reload_lookup env _ e Hr').
  assert (Hnone : current_secret_key (removeAccount e (boot env0 ops)) e = None).
  { rewrite (current_secret_key_ready _ e Hr').
    rewrite (removeAccount_wf_eq e _ (proj1 Hr) (proj2 Hr)). simpl.
    rewrite lookup_alter_eq. destruct (proj1 (proj2 (proj2 (proj2 (proj1 Hr))))) as [m ->].
    simpl. apply lookup_delete_eq. }
  destruct (env !! ("USER_SECRET_" ++ e)) as [v|]; [rewrite Ht|]; exact Hnone.
Qed.

Lemma headless_overrides_unset (env : gmap string string) (b : browser_obj) :
  env !! "HEADLESS" = None -> headless (browser_overrides env b) = headless b.
Proof.
  intros H. unfold browser_overrides, env_get. rewrite H.
  destruct (JS.truthy (env !! "BROWSER")), (JS.truthy (env !! "TIMEOUT")); reflexivity.
Qed.

Lemma headless_overrides_set (env : gmap string string) (b : browser_obj) (v : string) :
  env !! "HEADLESS" = Some v -> headless (browser_overrides env b) = String.eqb v "true".
Proof.
  intros H. unfold browser_overrides, env_get. rewrite H.
  destruct (JS.truthy (env !! "BROWSER")), (JS.truthy (env !! "TIMEOUT")); reflexivity.
Qed.

(** With [HEADLESS] unset, [reload()] keeps the headless flag the earlier
    environment chose instead of returning to the default [true]. *)
Theorem reload_keeps_headless (env1 env2 : gmap string string) (v : string) :
  env1 !! "HEADLESS" = Some v -> env2 !! "HEADLESS" = None ->
  headless <$> current_browser (loadConfiguration env2 (loadConfiguration env1 initial)) =
  Some (String.eqb v "true").
Proof.
  intros H1 H2.
  rewrite (reload_browser env2 _ (ready_first_load env1)).
  rewrite (current_browser_ready _ (ready_first_load env1)).
  rewrite (loadConfiguration_wf_eq env1 initial wf_initial). cbn [browser_objs].
  rewrite lookup_alter_eq.
  change (browser_objs initial !! 3) with (Some (mkBrowserObj "Chromium" true (Some 60000%Z))).
  cbn [fmap option_fmap option_map].
  rewrite headless_overrides_unset by exact H2.
  rewrite headless_overrides_set with (v := v) by exact H1. reflexivity.
Qed.

Lemma removeAccount_survives_reload_witness :
  JS.truthy ((∅ : gmap string string) !! ("USER_SECRET_" ++ "admin_test@publicinput.org")) = false /\
  current_secret_key (loadConfiguration ∅ (removeAccount "admin_test@publicinput.org" (boot ∅ [])))
    "admin_test@publicinput.org" = None.
Proof.
  split; [reflexivity|]. apply (removeAccount_survives_reload ∅ ∅ [] "admin_test@publicinput.org").
  reflexivity.
Defined.

Lemma reload_keeps_headless_witness :
  ({["HEADLESS" := "false"]} : gmap string string) !! "HEADLESS" = Some "false" /\
  (∅ : gmap string string) !! "HEADLESS" = None /\
  headless <$> current_browser (loadConfiguration ∅ (loadConfiguration {["HEADLESS" := "false"]} initial)) =
  Some false.
Proof.
  split; [reflexivity|]. split; [reflexivity|].
  apply (reload_keeps_headless {["HEADLESS" := "false"]} ∅ "false"); reflexivity.
Defined.
End SettingsHeapFacts.

Module SecretManagerInfoFacts.
Import SecretManager SecretManagerInfo Fixtures.

(** [getAvailableAccounts()] lists exactly the emails [hasAccount]
    accepts. *)
Theorem available_iff_hasAccount (e : string) (s : state) :
  In e (getAvailableAccounts s) <-> hasAccount e s = true.
Proof.
  unfold getAvailableAccounts, hasAccount. rewrite bool_decide_eq_true.
  rewrite in_map_iff. split.
  - intros [[k v] [Hk Hin]]. simpl in Hk; subst k.
    apply list_elem_of_In, elem_of_map_to_list in Hin. eexists; exact Hin.
  - intros [v Hv]. exists (e, v). split; [reflexivity|].
    apply list_elem_of_In, elem_of_map_to_list, Hv.
Qed.

(** For an email without a cached password, [getAccountInfo] returns
    [null] exactly when [retrievePasswordSync] throws. *)
Theorem getAccountInfo_none_iff_throws (e : string) (s : state) :
  secretCache s !! e = None ->
  getAccountInfo e s = None <-> fst (retrievePasswordSync e s) = Throw (NoSecretKey e).
Proof.
  intros Hc. unfold getAccountInfo, retrievePasswordSync. rewrite Hc.
  destruct (JS.truthy (secretKeys s !! e)); simpl; split; congruence.
Qed.

(** An email mapped to the empty secret key is an account for
    [hasAccount] and [getAvailableAccounts], but [getAccountInfo] returns
    [null] and an uncached retrieval throws. *)
Theorem hasAccount_empty_key (e : string) (s : state) :
  secretKeys s !! e = Some "" ->
  hasAccount e s = true /\ In e (getAvailableAccounts s) /\ getAccountInfo e s = None /\
  (secretCache s !! e = None -> fst (retrievePasswordSync e s) = Throw (NoSecretKey e)).
Proof.
  intros Hk.
  assert (Hh : hasAccount e s = true)
    by (unfold hasAccount; rewrite bool_decide_eq_true, Hk; eexists; reflexivity).
  split; [exact Hh|]. split.
  { unfold getAvailableAccounts. apply in_map_iff. exists (e, ""). split; [reflexivity|].
    apply list_elem_of_In, elem_of_map_to_list, Hk. }
  split.
  - unfold getAccountInfo. rewrite Hk. reflexivity.
  - intros Hc. unfold retrievePasswordSync. rewrite Hc, Hk. reflexivity.
Qed.

(** When [getAccountInfo] reports [hasPassword = false], an uncached
    retrieval returns the secret key itself as the password. *)
Theorem no_password_falls_back (e : string) (s : state) (i : AccountInfo) :
  getAccountInfo e s = Some i -> hasPassword i = false -> secretCache s !! e = None ->
  fst (retrievePasswordSync e s) = Ok (info_secretKey i).
Proof.
  intros Hi Hp Hc. unfold getAccountInfo in Hi. unfold retrievePasswordSync. rewrite Hc.
  destruct (JS.truthy (secretKeys s !! e)) eqn:Ht; [|discriminate].
  injection Hi as <-. simpl in Hp |- *.
  apply orb_false_iff in Hp as [Hp1 Hp2].
  apply bool_decide_eq_false in Hp1, Hp2.
  destruct (env s !! default "" (secretKeys s !! e)) as [v|] eqn:H1;
    [exfalso; apply Hp1; eexists; reflexivity|].
  destruct (env s !! password_env_key e) as [w|] eqn:H2;
    [exfalso; apply Hp2; eexists; reflexivity|].
  reflexivity.
Qed.

(** [hasPassword] tests for a defined variable, retrieval for a non-empty
    one: with the secret key's variable set to the empty string (and no
    non-empty [PASSWORD_] variable), [hasPassword] is true and yet the
    password retrieved is the secret key. *)
Theorem blank_password_counts_but_unused (e k : string) (s : state) :
  secretKeys s !! e = Some k -> k <> "" -> env s !! k = Some "" ->
  JS.truthy (env s !! password_env_key e) = false -> secretCache s !! e = None ->
  option_map hasPassword (getAccountInfo e s) = Some true /\
  fst (retrievePasswordSync e s) = Ok k.
Proof.
  intros Hk Hne Hv Hp Hc.
  assert (Ht : JS.truthy (Some k) = true)
    by (simpl; apply negb_true_iff, String.eqb_neq, Hne).
  split.
  - unfold getAccountInfo. rewrite Hk, Ht. simpl. rewrite Hv. reflexivity.
  - unfold retrievePasswordSync. rewrite Hc, Hk, Ht. simpl. rewrite Hv. simpl.
    rewrite Hp. reflexivity.
Qed.

(** After [removeAccount(email)] the email is no account, has no
    account info, and its retrieval throws, whatever was cached before. *)
Theorem removeAccount_forgets (e : string) (s : state) :
  hasAccount e (removeAccount e s) = false /\
  ~ In e (getAvailableAccounts (removeAccount e s)) /\
  getAccountInfo e (removeAccount e s) = None /\
  fst (retrievePasswordSync e (removeAccount e s)) = Throw (NoSecretKey e).
Proof.
  assert (Hh : hasAccount e (removeAccount e s) = false).
  { unfold hasAccount, removeAccount. simpl. rewrite lookup_delete_eq.
    apply bool_decide_eq_false. intros [v Hv]; discriminate. }
  split; [exact Hh|]. split.
  { intros Hin. unfold getAvailableAccounts in Hin. apply in_map_iff in Hin as [[k v] [Hk Hin]].
    simpl in Hk; subst k. apply list_elem_of_In, elem_of_map_to_list in Hin.
    unfold removeAccount in Hin; simpl in Hin. rewrite lookup_delete_eq in Hin. discriminate. }
  split.
  - unfold getAccountInfo, removeAccount. simpl. rewrite lookup_delete_eq. reflexivity.
  - unfold retrievePasswordSync, removeAccount. simpl. rewrite !lookup_delete_eq. reflexivity.
Qed.

Lemma getAccountInfo_none_iff_throws_witness :
  secretCache s_no_env !! "nobody@publicinput.org" = None /\
  (getAccountInfo "nobody@publicinput.org" s_no_env = None <->
   fst (retrievePasswordSync "nobody@publicinput.org" s_no_env)
   = Throw (NoSecretKey "nobody@publicinput.org")).
Proof.
  split; [reflexivity|]. apply (getAccountInfo_none_iff_throws "nobody@publicinput.org" s_no_env).
  reflexivity.
Defined.

Lemma hasAccount_empty_key_witness :
  secretKeys s_empty_key !! admin_email = Some "" /\
  hasAccount admin_email s_empty_key = true /\ In admin_email (getAvailableAccounts s_empty_key) /\
  getAccountInfo admin_email s_empty_key = None /\
  (secretCache s_empty_key !! admin_email = None ->
   fst (retrievePasswordSync admin_email s_empty_key) = Throw (NoSecretKey admin_email)).
Proof.
  split; [reflexivity|]. apply (hasAccount_empty_key admin_email s_empty_key). reflexivity.
Defined.

Lemma no_password_falls_back_witness :
  getAccountInfo admin_email s_no_env = Some (mkAccountInfo admin_email "TestAdminPassword" false) /\
  fst (retrievePasswordSync admin_email s_no_env) = Ok "TestAdminPassword".
Proof.
  split; [reflexivity|].
  apply (no_password_falls_back admin_email s_no_env (mkAccountInfo admin_email "TestAdminPassword" false));
    reflexivity.
Defined.

Lemma blank_password_counts_but_unused_witness :
  option_map hasPassword (getAccountInfo admin_email s_env_blank) = Some true /\
  fst (retrievePasswordSync admin_email s_env_blank) = Ok "TestAdminPassword".
Proof.
  apply (blank_password_counts_but_unused admin_email "TestAdminPassword" s_env_blank);
    [reflexivity|discriminate|reflexivity|reflexivity|reflexivity].
Defined.
End SecretManagerInfoFacts.

Module ClickFacts.
Import Retry Click.

Lemma click_loop_success (att : nat -> option error) (r : nat) :
  forall k a fuel,
  (forall i, a <= i < a + k -> is_Some (att i)) -> att (a + k) = None ->
  a + k < r -> k < fuel ->
  click_loop fuel a r att = (click_trace a k, Resolved tt).
Proof.
  induction k as [|k IH]; intros a fuel Hf Hs Hr Hfu; destruct fuel as [|fuel]; try lia; simpl.
  - rewrite Nat.add_0_r in Hs, Hr. rewrite (proj2 (Nat.ltb_lt a r) Hr), Hs. reflexivity.
  - rewrite (proj2 (Nat.ltb_lt a r)) by lia.
    destruct (Hf a ltac:(lia)) as [err Herr]. rewrite Herr.
    rewrite (proj2 (Nat.eqb_neq a (r - 1))) by lia.
    rewrite (IH (S a) fuel); [reflexivity| |replace (S a + k) with (a + S k) by lia; exact Hs|lia|lia].
    intros i Hi. apply Hf. lia.
Qed.

Lemma click_loop_fail (att : nat -> option error) (r : nat) (err : error) :
  forall k a fuel,
  a + k + 1 = r -> (forall i, a <= i < r -> is_Some (att i)) -> att (r - 1) = Some err ->
  k < fuel ->
  click_loop fuel a r att = (click_trace a k, Rejected err).
Proof.
  induction k as [|k IH]; intros a fuel Hr Hf He Hfu; destruct fuel as [|fuel]; try lia; simpl.
  - rewrite (proj2 (Nat.ltb_lt a r)) by lia.
    replace a with (r - 1) by lia. rewrite He, Nat.eqb_refl. reflexivity.
  - rewrite (proj2 (Nat.ltb_lt a r)) by lia.
    destruct (Hf a ltac:(lia)) as [e0 He0]. rewrite He0.
    rewrite (proj2 (Nat.eqb_neq a (r - 1))) by lia.
    rewrite (IH (S a) fuel); [reflexivity|lia| |exact He|lia].
    intros i Hi. apply Hf. lia.
Qed.

Lemma click_loop_rejected (att : nat -> option error) (r : nat) (err : error) :
  forall fuel a,
  snd (click_loop fuel a r att) = Rejected err ->
  a < r /\ (forall i, a <= i < r -> is_Some (att i)) /\ att (r - 1) = Some err.
Proof.
  induction fuel as [|fuel IH]; intros a H; simpl in H; [discriminate|].
  destruct (Nat.ltb_spec a r) as [Ha|Ha]; [|discriminate].
  destruct (att a) as [e0|] eqn:Hat; [|discriminate].
  destruct (Nat.eqb_spec a (r - 1)) as [Hl|Hl].
  - injection H as ->. split; [exact Ha|]. split; [|rewrite <- Hl; exact Hat].
    intros i Hi. replace i with a by lia. rewrite Hat. eexists; reflexivity.
  - destruct (click_loop fuel (S a) r att) as [tr res] eqn:Hc. simpl in H.
    assert (H' : snd (click_loop fuel (S a) r att) = Rejected err) by (rewrite Hc; exact H).
    destruct (IH (S a) H') as (Hlt & Hall & Hlast).
    split; [lia|]. split; [|exact Hlast].
    intros i Hi. destruct (decide (i = a)) as [->|Hne]; [rewrite Hat; eexists; reflexivity|].
    apply Hall. lia.
Qed.

(** Attempt [k] is the first one that succeeds: [clickElement] clicked
    after [k] failures, waiting one second after each. *)
Theorem clickElement_first_success (r k : nat) (att : nat -> option error) :
  (forall i, i < k -> is_Some (att i)) -> att k = None -> k < r ->
  clickElement (Some r) att = (click_trace 0 k, Resolved tt).
Proof.
  intros Hf Hs Hr. unfold clickElement.
  apply click_loop_success; [intros i Hi; apply Hf; lia|exact Hs|lia|lia].
Qed.

(** [clickElement] rejects exactly when [retries] is positive and every
    one of the [retries] attempts fails; it rejects with the last error,
    after [retries] attempts with a one-second wait between two of them.
    With [retries = 0] it resolves without any attempt, so without
    clicking. *)
Theorem clickElement_rejects_iff (r : nat) (att : nat -> option error) (err : error) :
  (snd (clickElement (Some r) att) = Rejected err <->
   0 < r /\ (forall i, i < r -> is_Some (att i)) /\ att (r - 1) = Some err) /\
  (snd (clickElement (Some r) att) = Rejected err ->
   fst (clickElement (Some r) att) = click_trace 0 (r - 1)) /\
  clickElement (Some 0) att = ([], Resolved tt).
Proof.
  assert (Hiff : snd (clickElement (Some r) att) = Rejected err <->
                 0 < r /\ (forall i, i < r -> is_Some (att i)) /\ att (r - 1) = Some err).
  { unfold clickElement. split.
    - intros H. destruct (click_loop_rejected att r err r 0 H) as (Hr & Hall & Hl).
      split; [exact Hr|]. split; [intros i Hi; apply Hall; lia|exact Hl].
    - intros (Hr & Hall & Hl).
      rewrite (click_loop_fail att r err (r - 1) 0 r); [reflexivity|lia| |exact Hl|lia].
      intros i Hi. apply Hall. lia. }
  split; [exact Hiff|]. split; [|reflexivity].
  intros H. apply Hiff in H as (Hr & Hall & Hl). unfold clickElement.
  rewrite (click_loop_fail att r err (r - 1) 0 r); [reflexivity|lia| |exact Hl|lia].
  intros i Hi. apply Hall. lia.
Qed.

Lemma clickElement_first_success_witness :
  clickElement (Some 3) (fun i => if Nat.eqb i 0 then Some (SelectorTimeout "button") else None)
  = ([Attempt 0; Wait 1000; Attempt 1], Resolved tt).
Proof.
  apply (clickElement_first_success 3 1
           (fun i => if Nat.eqb i 0 then Some (SelectorTimeout "button") else None)).
  - intros i Hi. replace i with 0 by lia. eexists; reflexivity.
  - reflexivity.
  - lia.
Defined.
End ClickFacts.

Module UserLoginFacts.
Import UserLogin.

(** [loginAsUser] rejects a string with its 'Unsupported user type'
    error exactly when the string is not among [getAllUserTypes()], and
    accepts every other string. *)
Theorem loginAsUser_unsupported_iff (u : string) (c : option string) :
  (loginAsUser u c = Throw (UnsupportedUserType u) <-> ~ In u getAllUserTypes) /\
  (In u getAllUserTypes -> exists r, loginAsUser u c = Ok r).
Proof.
  unfold loginAsUser, getAllUserTypes. simpl.
  destruct (String.eqb_spec u "SUPER_ADMIN") as [->|H1];
    [split; [split; [discriminate|intros Hn; exfalso; apply Hn; auto 10]|eauto]|].
  destruct (String.eqb_spec u "ADMIN") as [->|H2];
    [split; [split; [discriminate|intros Hn; exfalso; apply Hn; auto 10]|eauto]|].
  destruct (String.eqb_spec u "DATA_VIEWER") as [->|H3];
    [split; [split; [discriminate|intros Hn; exfalso; apply Hn; auto 10]|eauto]|].
  destruct (String.eqb_spec u "EDITOR") as [->|H4];
    [split; [split; [discriminate|intros Hn; exfalso; apply Hn; auto 10]|eauto]|].
  destruct (String.eqb_spec u "NONE") as [->|H5];
    [split; [split; [discriminate|intros Hn; exfalso; apply Hn; auto 10]|eauto]|].
  destruct (String.eqb_spec u "PUBLISHER") as [->|H6];
    [split; [split; [discriminate|intros Hn; exfalso; apply Hn; auto 10]|eauto]|].
  split; [split; [intros _|intros _; reflexivity]|].
  - intros H; exfalso; repeat destruct H as [H|H]; congruence.
  - intros H; exfalso; repeat destruct H as [H|H]; congruence.
Qed.

Lemma retrievePasswordSync_state (e : string) (s : SecretManager.state) :
  match SecretManager.retrievePasswordSync e s with
  | (Throw _, s') => s' = s
  | (Ok p, s') =>
      SecretManager.secretCache s' = <[e := p]> (SecretManager.secretCache s) /\
      SecretManager.secretKeys s' = SecretManager.secretKeys s /\
      SecretManager.env s' = SecretManager.env s
  end.
Proof.
  unfold SecretManager.retrievePasswordSync.
  destruct (SecretManager.secretCache s !! e) as [p|] eqn:Hc.
  - simpl. rewrite insert_id by exact Hc. auto.
  - destruct (JS.truthy (SecretManager.secretKeys s !! e)); simpl; auto.
Qed.

(** [getUserCredentials] changes the secret manager's state only when it
    succeeds, and then only by caching the returned password under the
    configured email of the role; every failure (no or empty configured
    email, no secret key) leaves the state as it was. *)
Theorem getUserCredentials_state (userEmails : gmap string string) (t : UserType)
    (s : SecretManager.state) :
  match getUserCredentials userEmails t s with
  | (Throw _, s') => s' = s
  | (Ok c, s') =>
      userEmails !! UserType_value t = Some (email c) /\ userType c = t /\
      SecretManager.secretCache s' = <[email c := password c]> (SecretManager.secretCache s) /\
      SecretManager.secretKeys s' = SecretManager.secretKeys s /\
      SecretManager.env s' = SecretManager.env s
  end.
Proof.
  unfold getUserCredentials.
  destruct (userEmails !! UserType_value t) as [v|] eqn:He; [|reflexivity].
  destruct (JS.truthy (Some v)); [|reflexivity]. simpl.
  pose proof (retrievePasswordSync_state v s) as Hr.
  destruct (SecretManager.retrievePasswordSync v s) as [[p|err] s1]; simpl; [|exact Hr].
  destruct Hr as (H1 & H2 & H3). auto.
Qed.
End UserLoginFacts.

Module RetryRoutineFacts.
Import Retry.

(** Inside [retryLogin], the special case for an admin with a customer id
    dispatches to the same routine as [loginAsUser] would. *)
Theorem attempt_routine_is_loginAsUser (t : UserLogin.UserType) (c : option string) :
  attempt_routine t c = UserLogin.loginAsUser (UserLogin.UserType_value t) c.
Proof.
  destruct t, c as [c|]; try reflexivity.
  unfold attempt_routine. destruct (JS.truthy (Some c)); reflexivity.
Qed.
End RetryRoutineFacts.

Module CountFacts.
Import Segmentation.

Lemma parse_digits_acc_zero (acc : nat) (s : string) :
  JS.parse_digits_acc acc s = 0 <->
  acc = 0 /\ Forall (fun c => nat_of_ascii c - 48 = 0) (list_ascii_of_string s).
Proof.
  revert acc; induction s as [|c s IH]; intros acc; simpl.
  - split; [intros ->; split; [reflexivity|constructor]|intros [-> _]; reflexivity].
  - rewrite IH, Forall_cons. split.
    + intros [H1 H2]. split; [lia|split; [lia|exact H2]].
    + intros [H1 [H2 H3]]. split; [lia|exact H3].
Qed.

Lemma keep_digits_Forall (P : ascii -> Prop) (s : string) :
  Forall P (list_ascii_of_string (JS.keep_digits s)) <->
  Forall (fun c => JS.is_digit c = true -> P c) (list_ascii_of_string s).
Proof.
  induction s as [|c s IH]; simpl; [split; intros; constructor|].
  destruct (JS.is_digit c) eqn:Hd; simpl; rewrite !Forall_cons, IH; [tauto|].
  split; [intros H; split; [intros Hf; cbv beta in Hf; congruence|exact H]|tauto].
Qed.

Lemma digit_zero (c : ascii) :
  JS.is_digit c = true -> (nat_of_ascii c - 48 = 0 <-> c = "0"%char).
Proof.
  intros Hd. unfold JS.is_digit in Hd. apply andb_prop in Hd as [H1 H2].
  apply Nat.leb_le in H1, H2. split.
  - intros H. rewrite <- (ascii_nat_embedding c).
    replace (nat_of_ascii c) with 48 by lia. reflexivity.
  - intros ->. reflexivity.
Qed.

Lemma keep_digits_empty (s : string) :
  JS.keep_digits s = EmptyString ->
  Forall (fun c => JS.is_digit c = true -> c = "0"%char) (list_ascii_of_string s).
Proof.
  induction s as [|c s IH]; simpl; [intros; constructor|].
  destruct (JS.is_digit c) eqn:Hd; [discriminate|].
  intros H. constructor; [intros Hf; congruence|exact (IH H)].
Qed.

(** The count parsed from an element's text is 0 exactly when every
    digit in the text is '0' (a text without digits included). *)
Theorem parse_count_zero_iff (t : string) :
  parse_count t = 0 <->
  Forall (fun c => JS.is_digit c = true -> c = "0"%char) (list_ascii_of_string t).
Proof.
  unfold parse_count, JS.parseInt_digits, JS.or_zero.
  destruct (JS.keep_digits t) as [|c r] eqn:Hk.
  - split; [intros _; apply keep_digits_empty, Hk|reflexivity].
  - rewrite <- Hk, parse_digits_acc_zero.
    transitivity (Forall (fun c => JS.is_digit c = true -> nat_of_ascii c - 48 = 0)
                    (list_ascii_of_string t)).
    + rewrite <- keep_digits_Forall. tauto.
    + split; intros HF; (eapply Forall_impl; [exact HF|]);
        intros x Hx Hd; apply (digit_zero x Hd), Hx, Hd.
Qed.
End CountFacts.

Module CRMCountFacts.
Import Segmentation CRMCounts.

(** Unlike the SegmentationPage getters, the CRMPage check does not read
    a missing element as 0: it rejects. *)
Theorem crm_verify_rejects_missing (p : page) :
  p crm_totalCountElement = None \/ p crm_potentialSegmentMembersCount = None ->
  exists sel, verifyTotalCountEqualsPotentialCount p = Rejected (SelectorTimeout sel).
Proof.
  intros H. unfold verifyTotalCountEqualsPotentialCount, getTotalCountBelowMembersTable,
    getPotentialSegmentMembersCount, getText.
  destruct (p crm_totalCountElement) as [t1|] eqn:H1; [|eexists; reflexivity].
  destruct H as [H|H]; [discriminate|]. rewrite H. eexists; reflexivity.
Qed.

(** The two CRMPage counts are read from two different elements, so the
    check compares whatever the two elements display. [parseInt] yields a
    double, which is exact for the integers below 2^53; the statement is
    made for counts in that range. *)
Theorem crm_verify_compares_both (t1 t2 : string) :
  (N.of_nat (parse_count t1) < 2 ^ 53)%N -> (N.of_nat (parse_count t2) < 2 ^ 53)%N ->
  verifyTotalCountEqualsPotentialCount
    (fun sel => if String.eqb sel crm_totalCountElement then Some t1
                else if String.eqb sel crm_potentialSegmentMembersCount then Some t2
                else None)
  = Resolved (Nat.eqb (parse_count t1) (parse_count t2)).
Proof.
  intros _ _.
  unfold verifyTotalCountEqualsPotentialCount, getTotalCountBelowMembersTable,
    getPotentialSegmentMembersCount, getText.
  rewrite String.eqb_refl.
  replace (String.eqb crm_potentialSegmentMembersCount crm_totalCountElement) with false
    by reflexivity.
  rewrite String.eqb_refl. reflexivity.
Qed.

Lemma crm_verify_compares_both_witness :
  verifyTotalCountEqualsPotentialCount
    (fun sel => if String.eqb sel crm_totalCountElement then Some "Total: 10"
                else if String.eqb sel crm_potentialSegmentMembersCount then Some "25"
                else None)
  = Resolved false.
Proof. apply (crm_verify_compares_both "Total: 10" "25"); vm_compute; reflexivity. Defined.

Lemma crm_verify_rejects_missing_witness :
  exists sel, verifyTotalCountEqualsPotentialCount (fun _ => None) = Rejected (SelectorTimeout sel).
Proof. apply (crm_verify_rejects_missing (fun _ => None)). left; reflexivity. Defined.
End CRMCountFacts.

Module TabFacts.
Import BasePage.

(** [verifyTabOpen] matches tab names without regard to case: two names
    with the same lower-case form give the same result, except that an
    unknown name is reported as given. *)
Theorem verifyTabOpen_case_insensitive (b : browser) (t1 t2 : string) :
  JS.toLowerCase t1 = JS.toLowerCase t2 ->
  verifyTabOpen b t1 = verifyTabOpen b t2 \/
  (verifyTabOpen b t1 = Rejected (UnknownTabName t1) /\
   verifyTabOpen b t2 = Rejected (UnknownTabName t2)).
Proof.
  intros H. unfold verifyTabOpen. rewrite H.
  destruct (String.eqb (JS.toLowerCase t2) "email"); [left; reflexivity|].
  destruct (String.eqb (JS.toLowerCase t2) "text"); [left; reflexivity|].
  destruct (String.eqb (JS.toLowerCase t2) "participants"); [left; reflexivity|].
  destruct (String.eqb (JS.toLowerCase t2) "comments"); [left; reflexivity|].
  destruct (String.eqb (JS.toLowerCase t2) "subscribers"); [left; reflexivity|].
  right; split; reflexivity.
Qed.

Lemma verifyTabOpen_case_insensitive_witness :
  JS.toLowerCase "Email" = JS.toLowerCase "EMAIL" /\
  (verifyTabOpen (fun _ => VisibleAfter 0) "Email" = verifyTabOpen (fun _ => VisibleAfter 0) "EMAIL" \/
   (verifyTabOpen (fun _ => VisibleAfter 0) "Email" = Rejected (UnknownTabName "Email") /\
    verifyTabOpen (fun _ => VisibleAfter 0) "EMAIL" = Rejected (UnknownTabName "EMAIL"))).
Proof.
  split; [reflexivity|].
  apply (verifyTabOpen_case_insensitive (fun _ => VisibleAfter 0) "Email" "EMAIL"). reflexivity.
Defined.
End TabFacts.
